(** * Credential lifecycle and pool allocation of the accounts app

    Shallow embedding of [accounts/models_token.py] (AuthToken),
    [accounts/models.py] (HuggingFaceToken, UserHFTokenAssignment),
    [accounts/authentication.py] (CookieJWTAuthentication) and the
    Login / TokenRefresh / Logout views of [accounts/views.py].

    Modelling conventions.
    - A database table is a list of rows in insertion order.  The models
      declare [ordering = ['-created_at']] and [created_at] is
      [auto_now_add], so the default queryset order is the reverse of the
      insertion order: [rev].
    - [timezone.now()] is an explicit [Z] (seconds).  Where one code path
      reads the clock twice and a claim depends on it ([AuthToken.revoke])
      both readings are explicit arguments.
    - A request runs in a state/exception monad over the three tables.
      Django requests are not atomic here (no [transaction.atomic]), so an
      exception keeps the writes done before it.
    - The signed-token library (simplejwt) is an external collaborator: the
      class [TokenBackend] gives the hash function, the structural
      validation of a raw token (signature, expiry claim, type claim) and
      [get_user]. *)

From Stdlib Require Import List ZArith String Ascii Bool Lia.
Import ListNotations.

Inductive token_type := Access | Refresh.

Definition token_type_eqb (a b : token_type) : bool :=
  match a, b with
  | Access, Access | Refresh, Refresh => true
  | _, _ => false
  end.

(** Payload of a structurally valid signed token. *)
Record Claims := mkClaims {
  c_jti : string;
  c_exp : Z;
  c_type : token_type;
  c_user : nat
}.

(** The external token library. *)
Class TokenBackend := {
  hash_token : string -> string;          (* sha256 hexdigest *)
  decode : Z -> string -> option Claims;  (* signature + exp claim check *)
  get_user : Claims -> option nat         (* JWTAuthentication.get_user *)
}.

Module AuthToken.
Record t := mk {
  id : nat;
  user : nat;
  token_type : token_type;
  token_hash : string;
  jti : string;
  created_at : Z;
  expires_at : Z;
  revoked_at : option Z;
  is_revoked : bool;
  refresh_token : option nat  (* FK to the parent refresh row *)
}.

(** [timezone.now() > self.expires_at] *)
Definition is_expired (now : Z) (self : t) : bool := (expires_at self <? now)%Z.

(** [not self.is_revoked and not self.is_expired()] *)
Definition is_valid (now : Z) (self : t) : bool :=
  negb (is_revoked self) && negb (is_expired now self).

Definition with_revoked (ts : Z) (self : t) : t :=
  mk (id self) (user self) (token_type self) (token_hash self) (jti self)
     (created_at self) (expires_at self) (Some ts) true (refresh_token self).
End AuthToken.

Module HuggingFaceToken.
Record t := mk {
  id : nat;
  token : string;
  name : string;
  is_active : bool;
  updated_at : Z   (* auto_now: set by every save() *)
}.
End HuggingFaceToken.

Module UserHFTokenAssignment.
Record t := mk {
  user : nat;
  hf_token : nat;  (* FK to HuggingFaceToken.id *)
  assigned_at : Z;
  released_at : option Z;
  is_active : bool;
  session_identifier : string
}.

Definition released (now : Z) (a : t) : t :=
  mk (user a) (hf_token a) (assigned_at a) (Some now) false (session_identifier a).
End UserHFTokenAssignment.

Record State := mkState {
  auth_tokens : list AuthToken.t;
  huggingface_tokens : list HuggingFaceToken.t;
  user_hf_token_assignments : list UserHFTokenAssignment.t
}.

Definition set_auth_tokens (st : State) (l : list AuthToken.t) : State :=
  mkState l (huggingface_tokens st) (user_hf_token_assignments st).

Definition set_assignments (st : State) (l : list UserHFTokenAssignment.t) : State :=
  mkState (auth_tokens st) (huggingface_tokens st) l.

(** ** A state and exception monad for request handlers *)

Inductive exn :=
| TokenError            (* simplejwt TokenError *)
| InvalidToken          (* raised by get_validated_token *)
| AuthenticationFailed
| IntegrityError        (* unique constraint on token_hash / jti *)
| ValidationError       (* serializer.is_valid(raise_exception=True) *)
| KeyError (key : string)
| AttributeError        (* e.g. [.encode()] called on bytes *)
| OverflowError.        (* datetime / timedelta out of range *)

Definition M (A : Type) : Type := State -> (A + exn) * State.

Definition ret {A} (a : A) : M A := fun s => (inl a, s).

Definition bind {A B} (m : M A) (k : A -> M B) : M B :=
  fun s => match m s with
           | (inl a, s') => k a s'
           | (inr e, s') => (inr e, s')
           end.

Definition raise {A} (e : exn) : M A := fun s => (inr e, s).

Definition get : M State := fun s => (inl s, s).

Definition put (s : State) : M unit := fun _ => (inl tt, s).

(** [try: m except Exception as e: h e] *)
Definition try_except {A} (m : M A) (h : exn -> M A) : M A :=
  fun s => match m s with
           | (inr e, s') => h e s'
           | r => r
           end.

Declare Scope m_scope.
Delimit Scope m_scope with m.
Notation "x <- m ;; k" := (bind m (fun x => k))
  (at level 61, m at next level, right associativity) : m_scope.
Notation "m ;; k" := (bind m (fun _ : unit => k))
  (at level 61, right associativity) : m_scope.
Open Scope m_scope.

(** ** HTTP responses *)

Inductive cookie_op :=
| SetCookie (key value : string)
| DeleteCookie (key : string).

Record Response := mkResponse {
  status : Z;
  cookies : list cookie_op
}.

Record Request := mkRequest {
  cookie_access_token : option string;
  cookie_refresh_token : option string;
  (** [self.get_raw_token(self.get_header(request))]: [None] when there is
      no Authorization header or it carries no raw token *)
  header_raw_token : option string
}.

Definition clear_cookies : list cookie_op :=
  [DeleteCookie "access_token"; DeleteCookie "refresh_token"].

(** ** Rows and querysets *)

Definition next_id (l : list AuthToken.t) : nat :=
  S (fold_right (fun r m => Nat.max (AuthToken.id r) m) 0%nat l).

(** [AuthToken.objects.filter(token_hash=h, token_type=tt).first()] *)
Definition first_token (l : list AuthToken.t) (h : string) (tt : token_type)
  : option AuthToken.t :=
  find (fun r => String.eqb (AuthToken.token_hash r) h
                 && token_type_eqb (AuthToken.token_type r) tt) (rev l).

(** Django's [on_delete=CASCADE] collector: a row is deleted when it is
    matched by the queryset or when, following [refresh_token] links, one of
    its ancestors is.  [fuel] bounds the length of the parent chain. *)
Fixpoint collected (m : AuthToken.t -> bool) (l : list AuthToken.t) (fuel : nat)
  (r : AuthToken.t) : bool :=
  m r ||
  match fuel, AuthToken.refresh_token r with
  | S f, Some p => existsb (fun q => Nat.eqb (AuthToken.id q) p && collected m l f q) l
  | _, _ => false
  end.

(** [queryset.delete()]: returns the number of deleted rows, cascade
    included. *)
Definition delete_tokens (m : AuthToken.t -> bool) : M nat :=
  st <- get ;;
  let l := auth_tokens st in
  let keep := filter (fun r => negb (collected m l (List.length l) r)) l in
  put (set_auth_tokens st keep) ;;
  ret (List.length l - List.length keep)%nat.

(** [queryset.update(...)] on the rows selected by [m]. *)
Definition update_tokens (m : AuthToken.t -> bool) (f : AuthToken.t -> AuthToken.t) : M unit :=
  st <- get ;;
  put (set_auth_tokens st (map (fun r => if m r then f r else r) (auth_tokens st))).

(** [self.save()]: an UPDATE of the row with the same primary key, or an
    INSERT when there is none. *)
Definition save_token (self : AuthToken.t) : M unit :=
  st <- get ;;
  let l := auth_tokens st in
  if existsb (fun r => Nat.eqb (AuthToken.id r) (AuthToken.id self)) l
  then put (set_auth_tokens st
              (map (fun r => if Nat.eqb (AuthToken.id r) (AuthToken.id self) then self else r) l))
  else put (set_auth_tokens st (l ++ [self])).

(** [AuthToken.objects.create(...)]: INSERT, refused by the unique indexes on
    [token_hash] and [jti]. *)
Definition create_token (r : AuthToken.t) : M unit :=
  st <- get ;;
  let l := auth_tokens st in
  if existsb (fun q => String.eqb (AuthToken.token_hash q) (AuthToken.token_hash r)
                       || String.eqb (AuthToken.jti q) (AuthToken.jti r)) l
  then raise IntegrityError
  else put (set_auth_tokens st (l ++ [r])).

(** ** AuthToken methods (models_token.py) *)

Definition is_child_of (self : AuthToken.t) (r : AuthToken.t) : bool :=
  match AuthToken.refresh_token r with
  | Some p => Nat.eqb p (AuthToken.id self)
  | None => false
  end.

(** [AuthToken.revoke]; [now1] and [now2] are the two [timezone.now()]
    calls of the method. *)
Definition revoke (now1 now2 : Z) (self : AuthToken.t) : M unit :=
  if negb (AuthToken.is_revoked self) then
    let self' := AuthToken.with_revoked now1 self in
    save_token self' ;;
    if token_type_eqb (AuthToken.token_type self') Refresh then
      update_tokens (fun r => is_child_of self' r && negb (AuthToken.is_revoked r))
                    (AuthToken.with_revoked now2)
    else ret tt
  else ret tt.

Definition days (n : Z) : Z := n * 86400.

(** [Q(expires_at__lt=cutoff) | Q(revoked_at__lt=cutoff)]; a NULL
    [revoked_at] does not satisfy [__lt]. *)
Definition purge_match (cutoff : Z) (r : AuthToken.t) : bool :=
  (AuthToken.expires_at r <? cutoff)%Z ||
  match AuthToken.revoked_at r with
  | Some t => (t <? cutoff)%Z
  | None => false
  end.

(** Python's [datetime] range, in seconds since the epoch (UTC):
    0001-01-01T00:00:00 and 9999-12-31T23:59:59. *)
Definition datetime_min : Z := -62135596800.
Definition datetime_max : Z := 253402300799.

(** [timedelta(days=n)]: the day count must have magnitude at most
    999999999. *)
Definition timedelta_days (n : Z) : M Z :=
  if (Z.abs n <=? 999999999)%Z then ret (days n) else raise OverflowError.

(** [t - delta] on an aware [datetime]: the result must stay in range. *)
Definition datetime_sub (t delta : Z) : M Z :=
  let r := (t - delta)%Z in
  if (datetime_min <=? r)%Z && (r <=? datetime_max)%Z then ret r else raise OverflowError.

(** [AuthToken.cleanup_expired_tokens(days_to_keep)] *)
Definition cleanup_expired_tokens (now days_to_keep : Z) : M nat :=
  delta <- timedelta_days days_to_keep ;;
  cutoff_date <- datetime_sub now delta ;;
  delete_tokens (purge_match cutoff_date).

(** Whether [now - timedelta(days=d)] can be computed. *)
Definition cutoff_in_range (now d : Z) : bool :=
  (Z.abs d <=? 999999999)%Z &&
  ((datetime_min <=? now - days d)%Z && (now - days d <=? datetime_max)%Z).

(** ** Pool allocation (LoginView._assign_hf_token) *)

Definition active_count (l : list UserHFTokenAssignment.t) (tk : HuggingFaceToken.t) : nat :=
  List.length (filter (fun a => Nat.eqb (UserHFTokenAssignment.hf_token a) (HuggingFaceToken.id tk)
                           && UserHFTokenAssignment.is_active a) l).

(** Python's [list.sort(key=lambda x: x[1])] is stable: a stable insertion
    sort on the key. *)
Fixpoint insert_by_count (x : HuggingFaceToken.t * nat) (l : list (HuggingFaceToken.t * nat))
  : list (HuggingFaceToken.t * nat) :=
  match l with
  | [] => [x]
  | y :: l' => if Nat.leb (snd x) (snd y) then x :: y :: l' else y :: insert_by_count x l'
  end.

Definition sort_by_count (l : list (HuggingFaceToken.t * nat)) : list (HuggingFaceToken.t * nat) :=
  fold_right insert_by_count [] l.

Definition _assign_hf_token (now : Z) (user : nat) (session_id : string)
  : M (option HuggingFaceToken.t) :=
  st <- get ;;
  (* HuggingFaceToken.objects.filter(is_active=True), ordered by -created_at *)
  let available_tokens := filter HuggingFaceToken.is_active (rev (huggingface_tokens st)) in
  match available_tokens with
  | [] => ret None
  | _ =>
    let token_usage :=
      map (fun tk => (tk, active_count (user_hf_token_assignments st) tk)) available_tokens in
    match sort_by_count token_usage with
    | [] => ret None
    | (selected_token, _) :: _ =>
      put (set_assignments st
             (user_hf_token_assignments st ++
              [UserHFTokenAssignment.mk user (HuggingFaceToken.id selected_token)
                                        now None true session_id])) ;;
      ret (Some selected_token)
    end
  end.

(** [LogoutView._release_hf_token] *)
Definition _release_hf_token (now : Z) (user : nat) (session_id : string) : M unit :=
  st <- get ;;
  put (set_assignments st
         (map (fun a => if Nat.eqb (UserHFTokenAssignment.user a) user
                           && String.eqb (UserHFTokenAssignment.session_identifier a) session_id
                           && UserHFTokenAssignment.is_active a
                        then UserHFTokenAssignment.released now a else a)
              (user_hf_token_assignments st))).

(** ** Request handlers *)

Section Views.
Context `{TB : TokenBackend}.

(** [AccessToken(token)] / [RefreshToken(token)]: structural validation by
    the token library, including its [token_type] claim. *)
Definition token_class (now : Z) (tt : token_type) (token : string) : M Claims :=
  match decode now token with
  | Some c => if token_type_eqb (c_type c) tt then ret c else raise TokenError
  | None => raise TokenError
  end.

(** [save_token_to_db(user, token, token_type, request, refresh_token_obj)] *)
Definition save_token_to_db (now : Z) (user : nat) (token : string) (tt : token_type)
  (refresh_token_obj : option AuthToken.t) : M AuthToken.t :=
  decoded <- token_class now tt token ;;
  st <- get ;;
  let auth_token :=
    AuthToken.mk (next_id (auth_tokens st)) user tt (hash_token token) (c_jti decoded)
                 now (c_exp decoded) None false (option_map AuthToken.id refresh_token_obj) in
  create_token auth_token ;;
  ret auth_token.

(** [d[key]] on a dict given as an association list. *)
Definition dict_get (d : list (string * string)) (key : string) : M string :=
  match find (fun kv => String.eqb (fst kv) key) d with
  | Some (_, v) => ret v
  | None => raise (KeyError key)
  end.

(** [serializer.is_valid(raise_exception=True)] for a [Serializer] whose
    declared [fields] are all required: [to_internal_value f v] is field
    [f]'s own validation of the submitted [v] ([None] when it refuses it);
    [serializer.validated_data] holds the declared fields and nothing
    else. *)
Fixpoint serializer_is_valid (to_internal_value : string -> string -> option string)
  (data : list (string * string)) (fields : list string) : M (list (string * string)) :=
  match fields with
  | [] => ret []
  | f :: fs =>
    match find (fun kv => String.eqb (fst kv) f) data with
    | None => raise ValidationError
    | Some (_, v) =>
      match to_internal_value f v with
      | None => raise ValidationError
      | Some v' =>
        rest <- serializer_is_valid to_internal_value data fs ;;
        ret ((f, v') :: rest)
      end
    end
  end.

(** [LoginSerializer]: [email] and [password]. *)
Definition LoginSerializer_fields : list string := ["email"; "password"]%string.

(** A raw token: the cookie value is a [str]; [get_raw_token] returns
    the header's token as [bytes]. *)
Inductive raw_token :=
| RawStr (s : string)
| RawBytes (s : string).

Definition raw_text (r : raw_token) : string :=
  match r with RawStr s | RawBytes s => s end.

(** Raw token: the [access_token] cookie, else the Authorization header. *)
Definition raw_token_of (req : Request) : option raw_token :=
  match cookie_access_token req with
  | Some raw => Some (RawStr raw)
  | None => option_map RawBytes (header_raw_token req)
  end.

(** [AuthToken.hash_token(token)], i.e. [sha256(token.encode())]: [bytes]
    has no [encode]. *)
Definition hash_raw_token (r : raw_token) : M string :=
  match r with
  | RawStr s => ret (hash_token s)
  | RawBytes _ => raise AttributeError
  end.

(** [self.get_validated_token(raw_token)]; the default token class is
    [AccessToken]. *)
Definition get_validated_token (now : Z) (raw_token : string) : M Claims :=
  match decode now raw_token with
  | Some c => if token_type_eqb (c_type c) Access then ret c else raise InvalidToken
  | None => raise InvalidToken
  end.

(** The store checks of [CookieJWTAuthentication.authenticate]. *)
Definition db_check (now : Z) (l : list AuthToken.t) (token_hash : string)
  : AuthToken.t + exn :=
  match first_token l token_hash Access with
  | None => inr AuthenticationFailed
  | Some db_token =>
    if AuthToken.is_revoked db_token then inr AuthenticationFailed
    else if AuthToken.is_expired now db_token then inr AuthenticationFailed
    else inl db_token
  end.

(** [CookieJWTAuthentication.authenticate]: [None] is an anonymous
    request, [Some (user, token)] an authenticated one. *)
Definition authenticate (now : Z) (req : Request) : M (option (nat * Claims)) :=
  match raw_token_of req with
  | None => ret None
  | Some raw_token =>
    validated_token <- get_validated_token now (raw_text raw_token) ;;
    token_hash <- hash_raw_token raw_token ;;
    st <- get ;;
    match db_check now (auth_tokens st) token_hash with
    | inr e => raise e
    | inl _ =>
      match get_user validated_token with
      | Some u => ret (Some (u, validated_token))
      | None => raise AuthenticationFailed
      end
    end
  end.

(** [LoginView.post]: [data] is [request.data]; [to_internal_value]
    is the fields' own validation (see [serializer_is_valid]);
    [authenticate_user username password] is Django's [authenticate] as
    (user id, is_active); the minted pair of tokens and the refresh
    token's [jti] come from [RefreshToken.for_user].  Exceptions are not
    caught. *)
Definition login_post (now : Z) (to_internal_value : string -> string -> option string)
  (data : list (string * string)) (authenticate_user : string -> string -> option (nat * bool))
  (refresh_token_str access_token_str refresh_jti : string) : M Response :=
  validated_data <- serializer_is_valid to_internal_value data LoginSerializer_fields ;;
  username <- dict_get validated_data "username" ;;
  password <- dict_get validated_data "password" ;;
  match authenticate_user username password with
  | None => ret (mkResponse 401 [])
  | Some (user, is_active) =>
    if negb is_active then ret (mkResponse 401 []) else
    let session_id := refresh_jti in
    _ <- _assign_hf_token now user session_id ;;
    refresh_token_obj <- save_token_to_db now user refresh_token_str Refresh None ;;
    _ <- save_token_to_db now user access_token_str Access (Some refresh_token_obj) ;;
    ret (mkResponse 200 [SetCookie "access_token" access_token_str;
                         SetCookie "refresh_token" refresh_token_str])
  end.

(** [filter(token_hash=h, token_type='refresh', is_revoked=False).first()] *)
Definition refresh_lookup (l : list AuthToken.t) (h : string) : option AuthToken.t :=
  find (fun r => String.eqb (AuthToken.token_hash r) h
                 && token_type_eqb (AuthToken.token_type r) Refresh
                 && negb (AuthToken.is_revoked r)) (rev l).

(** [TokenRefreshView.post]; [new_access_token] is [str(token.access_token)]. *)
Definition token_refresh_post (now : Z) (req : Request) (new_access_token : string)
  : M Response :=
  try_except
    (match cookie_refresh_token req with
     | None => ret (mkResponse 401 [])
     | Some refresh_token_str =>
       if String.eqb refresh_token_str "" then ret (mkResponse 401 []) else
       st <- get ;;
       match refresh_lookup (auth_tokens st) (hash_token refresh_token_str) with
       | Some db_refresh_token =>
         if AuthToken.is_valid now db_refresh_token then
           _ <- token_class now Refresh refresh_token_str ;;
           _ <- save_token_to_db now (AuthToken.user db_refresh_token) new_access_token
                                 Access (Some db_refresh_token) ;;
           ret (mkResponse 200 [SetCookie "access_token" new_access_token])
         else ret (mkResponse 401 [])
       | None => ret (mkResponse 401 [])
       end
     end)
    (fun _ => ret (mkResponse 401 [])).

(** [LogoutView.post] for the authenticated [user]. *)
Definition logout_post (now : Z) (user : nat) (req : Request) : M Response :=
  try_except
    ((match cookie_refresh_token req with
      | Some refresh_token_str =>
        if String.eqb refresh_token_str "" then ret tt else
        token <- token_class now Refresh refresh_token_str ;;
        let session_id := c_jti token in
        _release_hf_token now user session_id ;;
        st <- get ;;
        match first_token (auth_tokens st) (hash_token refresh_token_str) Refresh with
        | Some db_refresh_token =>
          _ <- delete_tokens (is_child_of db_refresh_token) ;;
          _ <- delete_tokens (fun r => Nat.eqb (AuthToken.id r) (AuthToken.id db_refresh_token)) ;;
          ret tt
        | None => ret tt
        end
      | None => ret tt
      end) ;;
     ret (mkResponse 200 clear_cookies))
    (fun _ => ret (mkResponse 400 [])).

(** The logout endpoint as DRF runs it: authentication, then the
    [IsAuthenticated] permission (401 for an anonymous request), then
    [post].  DRF answers an [APIException] of authentication with 401; any
    other exception propagates (a 500). *)
Definition logout_request (now : Z) (req : Request) : M Response :=
  try_except
    (auth <- authenticate now req ;;
     match auth with
     | None => ret (mkResponse 401 [])
     | Some (user, _) => logout_post now user req
     end)
    (fun e => match e with
              | InvalidToken | AuthenticationFailed => ret (mkResponse 401 [])
              | _ => raise e
              end).

End Views.

(** ** Further operations of the token store, the pool and the views *)

(** [AuthToken.revoke_all_user_tokens(user)] *)
Definition revoke_all_user_tokens (now : Z) (user : nat) : M unit :=
  update_tokens (fun r => Nat.eqb (AuthToken.user r) user && negb (AuthToken.is_revoked r))
                (AuthToken.with_revoked now).

(** [AuthToken.get_user_active_sessions(user)] *)
Definition get_user_active_sessions (now : Z) (user : nat) (st : State) : list AuthToken.t :=
  filter (fun r => Nat.eqb (AuthToken.user r) user
                   && token_type_eqb (AuthToken.token_type r) Refresh
                   && negb (AuthToken.is_revoked r)
                   && (now <? AuthToken.expires_at r)%Z)
         (rev (auth_tokens st)).

(** [AuthTokenAdmin.revoke_tokens]: the queryset is fetched once, then
    [token.revoke()] runs on each fetched instance; [clock k] gives the two
    [timezone.now()] readings of the [k]-th call.  Returns [count]. *)
Fixpoint revoke_tokens_loop (clock : nat -> Z * Z) (count : nat) (queryset : list AuthToken.t)
  : M nat :=
  match queryset with
  | [] => ret count
  | token :: rest =>
    revoke (fst (clock count)) (snd (clock count)) token ;;
    revoke_tokens_loop clock (S count) rest
  end.

Definition revoke_tokens (clock : nat -> Z * Z) (queryset : list AuthToken.t) : M nat :=
  revoke_tokens_loop clock 0 queryset.

Definition set_huggingface_tokens (st : State) (l : list HuggingFaceToken.t) : State :=
  mkState (auth_tokens st) l (user_hf_token_assignments st).

(** [HuggingFaceTokenViewSet.toggle_active]: [None] is the 404 of
    [get_object()], [Some b] the new [is_active]; [token.save()] also sets
    the [auto_now] field [updated_at] to [now]. *)
Definition toggle_active (now : Z) (pk : nat) : M (option bool) :=
  st <- get ;;
  match find (fun tk => Nat.eqb (HuggingFaceToken.id tk) pk) (huggingface_tokens st) with
  | None => ret None
  | Some token =>
    let token' := HuggingFaceToken.mk (HuggingFaceToken.id token) (HuggingFaceToken.token token)
                    (HuggingFaceToken.name token) (negb (HuggingFaceToken.is_active token))
                    now in
    put (set_huggingface_tokens st
           (map (fun tk => if Nat.eqb (HuggingFaceToken.id tk) pk then token' else tk)
                (huggingface_tokens st))) ;;
    ret (Some (HuggingFaceToken.is_active token'))
  end.

(** [select_related('hf_token')]: the joined pool row. *)
Definition hf_token_of (st : State) (a : UserHFTokenAssignment.t) : option HuggingFaceToken.t :=
  find (fun tk => Nat.eqb (HuggingFaceToken.id tk) (UserHFTokenAssignment.hf_token a))
       (huggingface_tokens st).

(** [UserHFTokenAssignment.objects.filter(user=user, is_active=True)
    .select_related('hf_token').first()], ordered by [-assigned_at]; the
    join drops rows without a pool entry. *)
Definition first_active_assignment (st : State) (user : nat)
  : option (UserHFTokenAssignment.t * HuggingFaceToken.t) :=
  let fix go (l : list UserHFTokenAssignment.t) :=
    match l with
    | [] => None
    | a :: l' =>
      if Nat.eqb (UserHFTokenAssignment.user a) user && UserHFTokenAssignment.is_active a then
        match hf_token_of st a with
        | Some tk => Some (a, tk)
        | None => go l'
        end
      else go l'
    end in
  go (rev (user_hf_token_assignments st)).

(** [UserHFTokenAssignmentViewSet.current]: [None] is the 404 answer. *)
Definition current_assignment (st : State) (user : nat) : option UserHFTokenAssignment.t :=
  option_map fst (first_active_assignment st user).

(** [HuggingFaceService._get_api_token] (chat/services.py);
    [default_token] is [settings.HUGGINGFACE_API_TOKEN]. *)
Definition _get_api_token (default_token : string) (st : State) (user : option nat) : string :=
  match user with
  | Some u =>
    match first_active_assignment st u with
    | Some (_, tk) => if HuggingFaceToken.is_active tk then HuggingFaceToken.token tk
                      else default_token
    | None => default_token
    end
  | None => default_token
  end.

(** [x_forwarded_for.split(',')[0]] *)
Fixpoint split_first_comma (s : string) : string :=
  match s with
  | EmptyString => EmptyString
  | String ch rest =>
    if Ascii.eqb ch ","%char then EmptyString else String ch (split_first_comma rest)
  end.

(** [get_client_ip(request)]: [None] is a missing META key; an empty
    header is falsy. *)
Definition get_client_ip (x_forwarded_for remote_addr : option string) : option string :=
  match x_forwarded_for with
  | Some xff => if String.eqb xff "" then remote_addr else Some (split_first_comma xff)
  | None => remote_addr
  end.

(** [AuthTokenAdmin.jti_short] *)
Definition jti_short (jti : string) : string :=
  if (16 <? String.length jti)%nat then (substring 0 16 jti ++ "...")%string else jti.

(** [HuggingFaceTokenViewSet.stats] *)
Record Stats := mkStats {
  total_tokens : nat;
  active_tokens : nat;
  inactive_tokens : nat;
  active_assignments : nat
}.

Definition stats (st : State) : Stats :=
  let total_tokens := List.length (huggingface_tokens st) in
  let active_tokens := List.length (filter HuggingFaceToken.is_active (huggingface_tokens st)) in
  let total_assignments :=
    List.length (filter UserHFTokenAssignment.is_active (user_hf_token_assignments st)) in
  mkStats total_tokens active_tokens (total_tokens - active_tokens) total_assignments.

(** [HuggingFaceTokenAdmin.assignment_count]: [obj.assignments] is the
    reverse of the [hf_token] foreign key. *)
Definition assignment_count (st : State) (obj : HuggingFaceToken.t) : nat :=
  List.length (filter (fun a => Nat.eqb (UserHFTokenAssignment.hf_token a) (HuggingFaceToken.id obj)
                                && UserHFTokenAssignment.is_active a)
                      (user_hf_token_assignments st)).

Section MoreViews.
Context `{TB : TokenBackend}.

(** [RegisterView.create] after the serializer created [user]: no
    HuggingFace token is assigned. *)
Definition register_create (now : Z) (user : nat) (refresh_token_str access_token_str : string)
  : M Response :=
  refresh_token_obj <- save_token_to_db now user refresh_token_str Refresh None ;;
  _ <- save_token_to_db now user access_token_str Access (Some refresh_token_obj) ;;
  ret (mkResponse 201 [SetCookie "access_token" access_token_str;
                       SetCookie "refresh_token" refresh_token_str]).

End MoreViews.

(** ** Sequences of ledger calls on one session identifier *)

Inductive ledger_call :=
| CallAssign (user : nat)   (* LoginView._assign_hf_token *)
| CallRelease (user : nat). (* LogoutView._release_hf_token *)

Fixpoint run_calls (now : Z) (sid : string) (calls : list ledger_call) : M unit :=
  match calls with
  | [] => ret tt
  | CallAssign u :: cs => _ <- _assign_hf_token now u sid ;; run_calls now sid cs
  | CallRelease u :: cs => _release_hf_token now u sid ;; run_calls now sid cs
  end.

Definition assign_calls (calls : list ledger_call) : nat :=
  List.length (filter (fun c => match c with CallAssign _ => true | _ => false end) calls).

(** Number of active Assignments bound to [sid]. *)
Definition active_for (sid : string) (l : list UserHFTokenAssignment.t) : nat :=
  List.length (filter (fun a => String.eqb (UserHFTokenAssignment.session_identifier a) sid
                                && UserHFTokenAssignment.is_active a) l).

(** ** A concrete token backend and database, used to exercise the
    theorems below on sample requests *)

Definition demo_decode (now : Z) (s : string) : option Claims :=
  if String.eqb s "rt1" then
    if (now <? 1000)%Z then Some (mkClaims "j1" 1000 Refresh 1) else None
  else if String.eqb s "at1" then
    if (now <? 500)%Z then Some (mkClaims "a1" 500 Access 1) else None
  else if String.eqb s "at2" then
    if (now <? 600)%Z then Some (mkClaims "a2" 600 Access 1) else None
  else if String.eqb s "rt2" then
    if (now <? 2000)%Z then Some (mkClaims "j2" 2000 Refresh 1) else None
  else None.

Definition demo_backend : TokenBackend :=
  {| hash_token := fun s => ("sha:" ++ s)%string;
     decode := demo_decode;
     get_user := fun c => Some (c_user c) |}.

Definition demo_refresh_row : AuthToken.t :=
  AuthToken.mk 1 1 Refresh "sha:rt1" "j1" 0 1000 None false None.

Definition demo_access_row : AuthToken.t :=
  AuthToken.mk 2 1 Access "sha:at1" "a1" 0 500 None false (Some 1%nat).

Definition demo_state : State :=
  mkState [demo_refresh_row; demo_access_row]
          [HuggingFaceToken.mk 1 "hf_one" "one" true 0; HuggingFaceToken.mk 2 "hf_two" "two" true 0]
          [UserHFTokenAssignment.mk 1 1 0 None true "j1"].

(** * Properties *)

(** ** General lemmas *)

Lemma NoDup_map_inj {A B} (f : A -> B) (l : list A) (x y : A) :
  NoDup (map f l) -> In x l -> In y l -> f x = f y -> x = y.
Proof.
  induction l as [|a l IH]; simpl; intros Hnd Hx Hy Hf; [contradiction|].
  inversion Hnd as [|? ? Hnotin Hnd']; subst.
  destruct Hx as [<-|Hx], Hy as [<-|Hy]; auto.
  - exfalso; apply Hnotin; rewrite Hf; apply in_map; exact Hy.
  - exfalso; apply Hnotin; rewrite <- Hf; apply in_map; exact Hx.
Qed.

Lemma token_type_eqb_true a b : token_type_eqb a b = true <-> a = b.
Proof. destruct a, b; simpl; split; congruence. Qed.

Lemma find_rev_none {A} (p : A -> bool) (l : list A) :
  (forall x, In x l -> p x = false) -> find p (rev l) = None.
Proof.
  intros H. destruct (find p (rev l)) eqn:E; [|reflexivity].
  apply find_some in E as [Hin Hp]. apply in_rev in Hin. rewrite H in Hp; [discriminate|assumption].
Qed.

Lemma find_rev_some {A} (p : A -> bool) (l : list A) x :
  find p (rev l) = Some x -> In x l /\ p x = true.
Proof.
  intros E. apply find_some in E as [Hin Hp]. split; [apply in_rev|]; assumption.
Qed.

Lemma find_rev_unique {A} (p : A -> bool) (l : list A) x :
  In x l -> p x = true -> (forall y, In y l -> p y = true -> y = x) ->
  find p (rev l) = Some x.
Proof.
  intros Hin Hp Hu. destruct (find p (rev l)) eqn:E.
  - apply find_rev_some in E as [Hin' Hp']. f_equal. apply Hu; assumption.
  - exfalso. eapply find_none in E; [|rewrite <- in_rev; exact Hin]. congruence.
Qed.

(** ** Store lookups *)

Lemma first_token_other_type (l : list AuthToken.t) (r : AuthToken.t) (tt : token_type) :
  NoDup (map AuthToken.token_hash l) -> In r l -> AuthToken.token_type r <> tt ->
  first_token l (AuthToken.token_hash r) tt = None.
Proof.
  intros Hnd Hin Hne. unfold first_token. apply find_rev_none.
  intros x Hx. destruct (String.eqb (AuthToken.token_hash x) (AuthToken.token_hash r)) eqn:Eh;
    [|reflexivity].
  apply String.eqb_eq in Eh.
  rewrite (NoDup_map_inj _ _ x r Hnd Hx Hin Eh).
  simpl. destruct (token_type_eqb (AuthToken.token_type r) tt) eqn:Et; [|reflexivity].
  apply token_type_eqb_true in Et. contradiction.
Qed.

Lemma db_check_other_type (now : Z) (l : list AuthToken.t) (r : AuthToken.t) :
  NoDup (map AuthToken.token_hash l) -> In r l -> AuthToken.token_type r = Refresh ->
  db_check now l (AuthToken.token_hash r) = inr AuthenticationFailed.
Proof.
  intros Hnd Hin Ht. unfold db_check.
  rewrite (first_token_other_type l r Access Hnd Hin); [reflexivity|].
  rewrite Ht; discriminate.
Qed.

(** [save_token_to_db] adds at most one record, of the requested type and
    for a token that the token class of that type accepts. *)
Lemma save_token_to_db_type `{TB : TokenBackend} (now : Z) (user : nat) (tok : string)
  (tt : token_type) (parent : option AuthToken.t) (st : State) (q : AuthToken.t) :
  In q (auth_tokens (snd (save_token_to_db now user tok tt parent st))) ->
  ~ In q (auth_tokens st) ->
  AuthToken.token_type q = tt /\ AuthToken.token_hash q = hash_token tok /\
  exists c, decode now tok = Some c /\ c_type c = tt.
Proof.
  intros Hq Hn. unfold save_token_to_db, token_class, create_token, bind, get, put, ret, raise in Hq.
  destruct (decode now tok) as [c|] eqn:Hd; [|contradiction].
  destruct (token_type_eqb (c_type c) tt) eqn:Ht; [|contradiction].
  cbn beta iota zeta in Hq.
  match type of Hq with context [if ?b then _ else _] => destruct b end; [contradiction|].
  cbn in Hq. apply in_app_or in Hq as [Hq|[<-|[]]]; [contradiction|].
  apply token_type_eqb_true in Ht. simpl. split; [reflexivity|]. split; [reflexivity|].
  exists c. auto.
Qed.

(** C10: the per-request authenticator only accepts access records: a raw
    token whose store record is a refresh record is rejected with an
    unauthenticated error, whatever its revocation and expiry state.  On
    the cookie path this holds of any such token; on the Authorization
    header path it holds of a refresh token (one that does not pass as an
    access token), which is what every refresh record holds, since
    [save_token_to_db] only stores a refresh record for a token that
    [RefreshToken] accepts (see [save_token_to_db_type]). *)
Theorem authenticate_rejects_refresh_record `{TB : TokenBackend} (now : Z) (req : Request)
  (st : State) (raw : raw_token) (r : AuthToken.t) :
  NoDup (map AuthToken.token_hash (auth_tokens st)) ->
  raw_token_of req = Some raw ->
  In r (auth_tokens st) ->
  AuthToken.token_hash r = hash_token (raw_text raw) ->
  AuthToken.token_type r = Refresh ->
  (cookie_access_token req = None ->
   forall c, decode now (raw_text raw) = Some c -> c_type c = Refresh) ->
  exists e, fst (authenticate now req st) = inr e
            /\ (e = InvalidToken \/ e = AuthenticationFailed).
Proof.
  intros Hnd Hraw Hin Hh Ht Hhdr.
  unfold authenticate. rewrite Hraw. unfold get_validated_token.
  destruct (decode now (raw_text raw)) as [c|] eqn:Hd; [|eexists; split; [reflexivity|auto]].
  destruct (token_type_eqb (c_type c) Access) eqn:Ea; [|eexists; split; [reflexivity|auto]].
  unfold raw_token_of in Hraw.
  destruct (cookie_access_token req) as [s|] eqn:Hc.
  - injection Hraw as <-. simpl in Hh. cbn -[db_check].
    rewrite <- Hh, (db_check_other_type now _ r Hnd Hin Ht).
    eexists; split; [reflexivity|auto].
  - exfalso. apply token_type_eqb_true in Ea. rewrite (Hhdr eq_refl c eq_refl) in Ea. discriminate.
Qed.

Lemma authenticate_rejects_refresh_record_witness :
  exists e, fst (@authenticate demo_backend 10 (mkRequest (Some "rt1"%string) None None) demo_state)
            = inr e /\ (e = InvalidToken \/ e = AuthenticationFailed).
Proof.
  apply (@authenticate_rejects_refresh_record demo_backend 10 _ demo_state (RawStr "rt1")
           demo_refresh_row).
  - repeat constructor; simpl; intuition discriminate.
  - reflexivity.
  - simpl; auto.
  - reflexivity.
  - reflexivity.
  - discriminate.
Defined.

Lemma authenticate_state (TB : TokenBackend) (now : Z) (req : Request) (st : State) :
  snd (authenticate now req st) = st.
Proof.
  unfold authenticate. destruct (raw_token_of req) as [raw|]; [|reflexivity].
  unfold get_validated_token. destruct (decode now (raw_text raw)) as [c|]; [|reflexivity].
  destruct (token_type_eqb (c_type c) Access); [|reflexivity].
  destruct raw as [raw|raw]; [|reflexivity].
  cbn -[db_check]. destruct (db_check now (auth_tokens st) (hash_token raw)); [|reflexivity].
  destruct (get_user c); reflexivity.
Qed.

Lemma not_expired_iff (now : Z) (r : AuthToken.t) :
  AuthToken.is_expired now r = false <-> (now <= AuthToken.expires_at r)%Z.
Proof. unfold AuthToken.is_expired. rewrite Z.ltb_ge. reflexivity. Qed.

(** C5 (as the code does it): the store check of a presented token succeeds
    iff a record with that hash and the expected type exists, is not
    revoked and [now <= expires_at] ([is_expired] is [now > expires_at]);
    for access tokens this is the check of the authenticator, for refresh
    tokens the lookup of the refresh view; authentication writes nothing. *)
Theorem store_validation_iff `{TB : TokenBackend} (now : Z) (req : Request) (st : State)
  (h : string) :
  NoDup (map AuthToken.token_hash (auth_tokens st)) ->
  ((exists t, db_check now (auth_tokens st) h = inl t) <->
   exists r, In r (auth_tokens st) /\ AuthToken.token_hash r = h
             /\ AuthToken.token_type r = Access /\ AuthToken.is_revoked r = false
             /\ (now <= AuthToken.expires_at r)%Z) /\
  ((exists t, refresh_lookup (auth_tokens st) h = Some t /\ AuthToken.is_valid now t = true) <->
   exists r, In r (auth_tokens st) /\ AuthToken.token_hash r = h
             /\ AuthToken.token_type r = Refresh /\ AuthToken.is_revoked r = false
             /\ (now <= AuthToken.expires_at r)%Z) /\
  snd (authenticate now req st) = st.
Proof.
  intros Hnd. set (l := auth_tokens st) in *.
  split; [|split; [|apply authenticate_state]].
  - split.
    + intros [t Ht]. unfold db_check, first_token in Ht.
      destruct (find _ (rev l)) as [x|] eqn:E; [|discriminate].
      apply find_rev_some in E as [Hin Hp].
      apply andb_prop in Hp as [Hh Ht'].
      apply String.eqb_eq in Hh. apply token_type_eqb_true in Ht'.
      destruct (AuthToken.is_revoked x) eqn:Er; [discriminate|].
      destruct (AuthToken.is_expired now x) eqn:Ee; [discriminate|].
      apply not_expired_iff in Ee. exists x; auto.
    + intros (r & Hin & Hh & Ht & Hr & He). exists r. unfold db_check, first_token.
      rewrite (find_rev_unique _ l r Hin).
      * rewrite Hr. apply not_expired_iff in He. rewrite He. reflexivity.
      * rewrite Hh, String.eqb_refl, Ht. reflexivity.
      * intros y Hy Hp. apply andb_prop in Hp as [Hyh _]. apply String.eqb_eq in Hyh.
        apply (NoDup_map_inj _ _ y r Hnd Hy Hin). congruence.
  - split.
    + intros (t & Ht & Hv). unfold refresh_lookup in Ht.
      apply find_rev_some in Ht as [Hin Hp].
      apply andb_prop in Hp as [Hp Hr]. apply andb_prop in Hp as [Hh Ht].
      apply String.eqb_eq in Hh. apply token_type_eqb_true in Ht.
      apply negb_true_iff in Hr.
      unfold AuthToken.is_valid in Hv. rewrite Hr in Hv. simpl in Hv.
      apply negb_true_iff, not_expired_iff in Hv. exists t; auto.
    + intros (r & Hin & Hh & Ht & Hr & He). exists r. unfold refresh_lookup. split.
      * apply (find_rev_unique _ l r Hin).
        -- rewrite Hh, String.eqb_refl, Ht, Hr. reflexivity.
        -- intros y Hy Hp. apply andb_prop in Hp as [Hp _]. apply andb_prop in Hp as [Hyh _].
           apply String.eqb_eq in Hyh.
           apply (NoDup_map_inj _ _ y r Hnd Hy Hin). congruence.
      * unfold AuthToken.is_valid. rewrite Hr. apply not_expired_iff in He. rewrite He.
        reflexivity.
Qed.

Lemma store_validation_iff_witness :
  let st := demo_state in
  NoDup (map AuthToken.token_hash (auth_tokens st)) /\
  (exists t, db_check 500 (auth_tokens st) "sha:at1" = inl t).
Proof.
  simpl. assert (Hnd : NoDup (map AuthToken.token_hash (auth_tokens demo_state)))
    by (repeat constructor; simpl; intuition discriminate).
  split; [exact Hnd|].
  destruct (@store_validation_iff demo_backend 500 (mkRequest None None None) demo_state
              "sha:at1" Hnd) as [[_ H] _].
  apply H. exists demo_access_row. simpl. repeat split; auto; lia.
Defined.

(** C5 as stated fails at the boundary [now = expires_at]: the store check
    still accepts the token although [now < expires_at] is false. *)
Lemma store_validation_boundary_counterexample :
  let r := AuthToken.mk 1 1 Access "h" "j" 0 5 None false None in
  db_check 5 [r] "h" = inl r /\ ~ (5 < AuthToken.expires_at r)%Z.
Proof. simpl. split; [reflexivity|lia]. Qed.

(** ** Monad and insertion lemmas *)

Lemma bind_inl {A B} (m : M A) (k : A -> M B) s a s' :
  m s = (inl a, s') -> bind m k s = k a s'.
Proof. unfold bind; intros ->; reflexivity. Qed.

Lemma bind_inr {A B} (m : M A) (k : A -> M B) s e s' :
  m s = (inr e, s') -> bind m k s = (inr e, s').
Proof. unfold bind; intros ->; reflexivity. Qed.

Lemma existsb_all_false {A} (p : A -> bool) (l : list A) :
  (forall x, In x l -> p x = false) -> existsb p l = false.
Proof.
  intros H. destruct (existsb p l) eqn:E; [|reflexivity].
  apply existsb_exists in E as [x [Hx Hp]]. rewrite H in Hp; auto.
Qed.

Lemma filter_all_false {A} (p : A -> bool) (l : list A) :
  (forall x, In x l -> p x = false) -> filter p l = [].
Proof.
  induction l as [|a l IH]; simpl; intros H; [reflexivity|].
  rewrite H by auto. apply IH; auto.
Qed.

Lemma save_token_to_db_fresh `{TB : TokenBackend} (now : Z) (user : nat) (tok : string)
  (tt : token_type) (parent : option AuthToken.t) (c : Claims) (st : State) :
  decode now tok = Some c -> c_type c = tt ->
  (forall q, In q (auth_tokens st) ->
             AuthToken.token_hash q <> hash_token tok /\ AuthToken.jti q <> c_jti c) ->
  save_token_to_db now user tok tt parent st =
  (inl (AuthToken.mk (next_id (auth_tokens st)) user tt (hash_token tok) (c_jti c) now
                     (c_exp c) None false (option_map AuthToken.id parent)),
   set_auth_tokens st
     (auth_tokens st ++
      [AuthToken.mk (next_id (auth_tokens st)) user tt (hash_token tok) (c_jti c) now
                    (c_exp c) None false (option_map AuthToken.id parent)])).
Proof.
  intros Hd Ht Hfresh.
  assert (Htt : token_type_eqb (c_type c) tt = true) by (apply token_type_eqb_true; exact Ht).
  unfold save_token_to_db, token_class, create_token, bind, get, put, ret, raise.
  rewrite Hd, Htt. cbn -[existsb].
  rewrite existsb_all_false; [reflexivity|].
  intros q Hq. simpl. destruct (Hfresh q Hq) as [H1 H2].
  apply orb_false_iff; split; apply String.eqb_neq; assumption.
Qed.

Lemma assign_hf_token_exhausted (now : Z) (user : nat) (sid : string) (st : State) :
  (forall tk, In tk (huggingface_tokens st) -> HuggingFaceToken.is_active tk = false) ->
  _assign_hf_token now user sid st = (inl None, st).
Proof.
  intros H. unfold _assign_hf_token. cbn -[filter].
  rewrite filter_all_false; [reflexivity|].
  intros x Hx. apply H. apply in_rev. exact Hx.
Qed.

Lemma serializer_is_valid_shape (to_internal_value : string -> string -> option string)
  (data : list (string * string)) (fields : list string) (st : State) :
  (exists vd, serializer_is_valid to_internal_value data fields st = (inl vd, st) /\
              map fst vd = fields) \/
  serializer_is_valid to_internal_value data fields st = (inr ValidationError, st).
Proof.
  induction fields as [|f fs IH]; simpl.
  - left. exists []. split; reflexivity.
  - destruct (find (fun kv => String.eqb (fst kv) f) data) as [[k v]|]; [|right; reflexivity].
    destruct (to_internal_value f v) as [v'|]; [|right; reflexivity].
    destruct IH as [[vd [E Hm]]|E].
    + left. exists ((f, v') :: vd). split; [|simpl; rewrite Hm; reflexivity].
      rewrite (bind_inl _ _ st vd st E). reflexivity.
    + right. exact (bind_inr _ _ st ValidationError st E).
Qed.

Lemma dict_get_missing (d : list (string * string)) (key : string) (st : State) :
  ~ In key (map fst d) -> dict_get d key st = (inr (KeyError key), st).
Proof.
  intros H. unfold dict_get.
  destruct (find (fun kv => String.eqb (fst kv) key) d) as [[k v]|] eqn:E; [|reflexivity].
  exfalso. apply find_some in E as [Hin Hk]. apply String.eqb_eq in Hk. simpl in Hk. subst k.
  apply H. apply in_map_iff. exists (key, v). auto.
Qed.

(** C8 (a defect of the code): pool exhaustion itself is recovered
    locally, since [_assign_hf_token] then returns [None] and creates no
    Assignment.  But [LoginView.post] reads [validated_data['username']],
    and [LoginSerializer] only has [email] and [password]: every request
    that passes validation raises [KeyError] (a 500), and every other one
    is refused by validation, before the pool is consulted and without any
    write.  So login never succeeds, whether the pool is exhausted or not. *)
Theorem login_pool_exhausted_fails `{TB : TokenBackend} (now : Z) (user : nat) (sid : string)
  (to_internal_value : string -> string -> option string) (data : list (string * string))
  (authenticate_user : string -> string -> option (nat * bool)) (rs acc rj : string)
  (st : State) :
  (forall tk, In tk (huggingface_tokens st) -> HuggingFaceToken.is_active tk = false) ->
  _assign_hf_token now user sid st = (inl None, st) /\
  exists e, login_post now to_internal_value data authenticate_user rs acc rj st = (inr e, st) /\
    (e = KeyError "username" \/ e = ValidationError) /\
    (e = KeyError "username" <->
     exists vd, fst (serializer_is_valid to_internal_value data LoginSerializer_fields st) = inl vd).
Proof.
  intros Hpool. split; [exact (assign_hf_token_exhausted now user sid st Hpool)|].
  destruct (serializer_is_valid_shape to_internal_value data LoginSerializer_fields st)
    as [[vd [E Hm]]|E].
  - exists (KeyError "username"). split.
    + unfold login_post. rewrite (bind_inl _ _ st vd st E).
      apply bind_inr. apply dict_get_missing. rewrite Hm. simpl. intuition discriminate.
    + split; [left; reflexivity|]. split; [intros _; exists vd; rewrite E; reflexivity|].
      intros _; reflexivity.
  - exists ValidationError. split.
    + unfold login_post. exact (bind_inr _ _ st ValidationError st E).
    + split; [right; reflexivity|]. split; [discriminate|].
      intros [vd Hvd]. rewrite E in Hvd. discriminate.
Qed.

Lemma login_pool_exhausted_fails_witness :
  exists e, @login_post demo_backend 10 (fun _ v => Some v)
              [("email", "a@b.co"); ("password", "pw")]%string (fun _ _ => Some (1%nat, true))
              "rt1" "at1" "j1" (mkState [] [HuggingFaceToken.mk 1 "hf_one" "one" false 0] [])
            = (inr e, mkState [] [HuggingFaceToken.mk 1 "hf_one" "one" false 0] []) /\
            (e = KeyError "username" \/ e = ValidationError) /\
            (e = KeyError "username" <->
             exists vd, fst (serializer_is_valid (fun _ v => Some v)
                               [("email", "a@b.co"); ("password", "pw")]%string
                               LoginSerializer_fields
                               (mkState [] [HuggingFaceToken.mk 1 "hf_one" "one" false 0] []))
                        = inl vd).
Proof.
  apply (@login_pool_exhausted_fails demo_backend 10 1 "j1").
  intros tk [<-|[]]. reflexivity.
Defined.

(** C8 as stated fails: with the pool exhausted, a login with a valid
    e-mail address and password, for an active user whom [authenticate]
    accepts, raises [KeyError 'username'] instead of succeeding. *)
Lemma login_keyerror_counterexample :
  @login_post demo_backend 10 (fun _ v => Some v)
    [("email", "a@b.co"); ("password", "pw")]%string (fun _ _ => Some (1%nat, true))
    "rt1" "at1" "j1" (mkState [] [HuggingFaceToken.mk 1 "hf_one" "one" false 0] [])
  = (inr (KeyError "username"), mkState [] [HuggingFaceToken.mk 1 "hf_one" "one" false 0] []).
Proof. reflexivity. Qed.

Lemma token_class_ok `{TB : TokenBackend} (now : Z) (tt : token_type) (tok : string)
  (c : Claims) (st : State) :
  decode now tok = Some c -> c_type c = tt -> token_class now tt tok st = (inl c, st).
Proof.
  intros Hd Ht. unfold token_class. rewrite Hd.
  assert (Htt : token_type_eqb (c_type c) tt = true) by (apply token_type_eqb_true; exact Ht).
  rewrite Htt. reflexivity.
Qed.

(** C9: a refresh with a valid refresh token appends exactly one access
    record, parented to the presented refresh record, and rebinds only the
    access cookie; the existing records, the pool and the Assignment ledger
    are unchanged. *)
Theorem token_refresh_mints_one_access `{TB : TokenBackend} (now : Z) (req : Request)
  (new_access_token : string) (st : State) (s : string) (r : AuthToken.t) (c ca : Claims) :
  cookie_refresh_token req = Some s -> s <> ""%string ->
  refresh_lookup (auth_tokens st) (hash_token s) = Some r ->
  AuthToken.is_valid now r = true ->
  decode now s = Some c -> c_type c = Refresh ->
  decode now new_access_token = Some ca -> c_type ca = Access ->
  (forall q, In q (auth_tokens st) ->
     AuthToken.token_hash q <> hash_token new_access_token /\ AuthToken.jti q <> c_jti ca) ->
  token_refresh_post now req new_access_token st =
  (inl (mkResponse 200 [SetCookie "access_token" new_access_token]),
   mkState (auth_tokens st ++
            [AuthToken.mk (next_id (auth_tokens st)) (AuthToken.user r) Access
                          (hash_token new_access_token) (c_jti ca) now (c_exp ca) None false
                          (Some (AuthToken.id r))])
           (huggingface_tokens st) (user_hf_token_assignments st)).
Proof.
  intros Hck Hne Hl Hv Hd Ht Hda Hta Hfresh.
  unfold token_refresh_post, try_except. rewrite Hck.
  apply String.eqb_neq in Hne. rewrite Hne.
  unfold bind at 1, get. rewrite Hl, Hv.
  erewrite bind_inl by (apply token_class_ok; [exact Hd|exact Ht]).
  erewrite bind_inl by (apply save_token_to_db_fresh; [exact Hda|exact Hta|exact Hfresh]).
  reflexivity.
Qed.

Lemma token_refresh_mints_one_access_witness :
  fst (@token_refresh_post demo_backend 10 (mkRequest None (Some "rt1"%string) None) "at2"
         demo_state) = inl (mkResponse 200 [SetCookie "access_token" "at2"]).
Proof.
  rewrite (@token_refresh_mints_one_access demo_backend 10 _ "at2" demo_state "rt1"
             demo_refresh_row (mkClaims "j1" 1000 Refresh 1) (mkClaims "a2" 600 Access 1)).
  - reflexivity.
  - reflexivity.
  - discriminate.
  - reflexivity.
  - reflexivity.
  - reflexivity.
  - reflexivity.
  - reflexivity.
  - reflexivity.
  - intros q [<-|[<-|[]]]; simpl; split; discriminate.
Defined.

(** ** Least-loaded selection *)

(** The head of the stable sort is the first element, in list order, whose
    key is minimal. *)
Lemma sort_by_count_head (f : HuggingFaceToken.t -> nat) (l : list HuggingFaceToken.t) :
  l <> [] ->
  exists tk rest l1 l2,
    sort_by_count (map (fun t => (t, f t)) l) = (tk, f tk) :: rest /\
    l = l1 ++ tk :: l2 /\
    Forall (fun y => f tk < f y) l1 /\
    Forall (fun y => f tk <= f y) l.
Proof.
  induction l as [|a l IH]; intros Hne; [congruence|].
  destruct l as [|b l'].
  - exists a, [], [], []. repeat split; auto.
  - destruct IH as (tk & rest & l1 & l2 & Hs & Hl & H1 & Hmin); [discriminate|].
    change (sort_by_count (map (fun t => (t, f t)) (a :: b :: l')))
      with (insert_by_count (a, f a) (sort_by_count (map (fun t => (t, f t)) (b :: l')))).
    rewrite Hs. simpl insert_by_count.
    destruct (Nat.leb (f a) (f tk)) eqn:E.
    + apply Nat.leb_le in E.
      exists a, ((tk, f tk) :: rest), [], (b :: l'). repeat split; auto.
      constructor; [lia|]. eapply Forall_impl; [|exact Hmin]. simpl; intros; lia.
    + apply Nat.leb_gt in E.
      exists tk, (insert_by_count (a, f a) rest), (a :: l1), l2.
      repeat split.
      * rewrite Hl. reflexivity.
      * constructor; [exact E|exact H1].
      * constructor; [lia|exact Hmin].
Qed.

(** C3 (as the code does it): when some pool entry is active,
    [_assign_hf_token] selects an active entry whose count of active
    Assignments is minimal among the active entries; among the entries tied
    at that minimum it selects the most recently created one (the queryset
    is ordered by [-created_at] and the sort is stable): every active entry
    inserted after the selected one has a strictly larger count.  It then
    appends one active Assignment for that entry and session. *)
Theorem assign_selects_least_loaded (now : Z) (user : nat) (sid : string) (st : State) :
  (exists tk, In tk (huggingface_tokens st) /\ HuggingFaceToken.is_active tk = true) ->
  let L := user_hf_token_assignments st in
  exists sel before after,
    fst (_assign_hf_token now user sid st) = inl (Some sel) /\
    HuggingFaceToken.is_active sel = true /\
    filter HuggingFaceToken.is_active (huggingface_tokens st) = before ++ sel :: after /\
    (forall tk, In tk (huggingface_tokens st) -> HuggingFaceToken.is_active tk = true ->
                active_count L sel <= active_count L tk) /\
    Forall (fun tk => active_count L sel < active_count L tk) after /\
    user_hf_token_assignments (snd (_assign_hf_token now user sid st))
      = L ++ [UserHFTokenAssignment.mk user (HuggingFaceToken.id sel) now None true sid].
Proof.
  intros [tk0 [Hin0 Hact0]] L.
  set (P := filter HuggingFaceToken.is_active (huggingface_tokens st)).
  assert (HP : rev P <> []).
  { intros E. assert (In tk0 (rev P)) by (apply in_rev; rewrite rev_involutive;
      apply filter_In; auto). rewrite E in H; contradiction. }
  destruct (sort_by_count_head (active_count L) (rev P) HP)
    as (sel & rest & l1 & l2 & Hs & Hl & H1 & Hmin).
  assert (Hsel : In sel P) by (apply in_rev; rewrite Hl; apply in_or_app; simpl; auto).
  apply filter_In in Hsel as [Hsel_in Hsel_act].
  exists sel, (rev l2), (rev l1).
  assert (Hrun : _assign_hf_token now user sid st =
                 (inl (Some sel),
                  set_assignments st (L ++ [UserHFTokenAssignment.mk user
                                              (HuggingFaceToken.id sel) now None true sid]))).
  { unfold _assign_hf_token, bind, get, put, ret. cbn beta iota.
    rewrite filter_rev. fold P. fold L.
    destruct (rev P) as [|x xs] eqn:ErP; [congruence|].
    rewrite Hs. reflexivity. }
  rewrite Hrun. repeat split.
  - exact Hsel_act.
  - fold P. rewrite <- (rev_involutive P), Hl, rev_app_distr. simpl.
    rewrite <- app_assoc. reflexivity.
  - intros tk Hin Hact. rewrite Forall_forall in Hmin. apply Hmin.
    apply in_rev. rewrite rev_involutive. apply filter_In; auto.
  - apply Forall_forall. intros y Hy. apply in_rev in Hy.
    rewrite Forall_forall in H1. apply H1. exact Hy.
Qed.

Lemma assign_selects_least_loaded_witness :
  exists sel, fst (_assign_hf_token 10 2 "j9" demo_state) = inl (Some sel) /\
              HuggingFaceToken.is_active sel = true.
Proof.
  destruct (assign_selects_least_loaded 10 2 "j9" demo_state)
    as (sel & _ & _ & Hrun & Hact & _).
  - exists (HuggingFaceToken.mk 1 "hf_one" "one" true 0). simpl; auto.
  - exists sel; split; assumption.
Defined.

(** C3 as stated (earliest entry wins a tie) fails: with two active entries
    and no Assignment, the entry inserted last is selected. *)
Lemma assign_tie_counterexample :
  let tk1 := HuggingFaceToken.mk 1 "hf_one" "one" true 0 in
  let tk2 := HuggingFaceToken.mk 2 "hf_two" "two" true 0 in
  let st := mkState [] [tk1; tk2] [] in
  active_count [] tk1 = active_count [] tk2 /\
  fst (_assign_hf_token 0 1 "s" st) = inl (Some tk2).
Proof. split; reflexivity. Qed.

(** ** At most one active Assignment per session *)

Lemma active_for_app (sid : string) (l1 l2 : list UserHFTokenAssignment.t) :
  active_for sid (l1 ++ l2) = (active_for sid l1 + active_for sid l2)%nat.
Proof. unfold active_for. rewrite filter_app, length_app. reflexivity. Qed.

Lemma assign_hf_token_step (now : Z) (u : nat) (sid : string) (st : State) :
  exists o, fst (_assign_hf_token now u sid st) = inl o /\
    active_for sid (user_hf_token_assignments (snd (_assign_hf_token now u sid st)))
      <= active_for sid (user_hf_token_assignments st) + 1.
Proof.
  unfold _assign_hf_token, bind, get, put, ret. cbn beta iota.
  destruct (filter HuggingFaceToken.is_active (rev (huggingface_tokens st))) as [|x xs].
  - eexists; split; [reflexivity|]. simpl. lia.
  - destruct (sort_by_count _) as [|[sel n] rest].
    + eexists; split; [reflexivity|]. simpl. lia.
    + eexists; split; [reflexivity|]. simpl. rewrite active_for_app.
      unfold active_for at 2. simpl. rewrite String.eqb_refl. simpl. lia.
Qed.

Lemma release_hf_token_step (now : Z) (u : nat) (sid : string) (st : State) :
  fst (_release_hf_token now u sid st) = inl tt /\
  active_for sid (user_hf_token_assignments (snd (_release_hf_token now u sid st)))
    <= active_for sid (user_hf_token_assignments st).
Proof.
  split; [reflexivity|]. simpl.
  induction (user_hf_token_assignments st) as [|a l IH]; simpl; [lia|].
  unfold active_for in *. simpl.
  destruct (Nat.eqb _ u && _ && _) eqn:E; simpl;
    destruct (String.eqb (UserHFTokenAssignment.session_identifier a) sid),
             (UserHFTokenAssignment.is_active a); simpl; lia.
Qed.

Lemma run_calls_bound (now : Z) (sid : string) (calls : list ledger_call) (st : State) :
  active_for sid (user_hf_token_assignments (snd (run_calls now sid calls st)))
    <= active_for sid (user_hf_token_assignments st) + assign_calls calls.
Proof.
  revert st. induction calls as [|c cs IH]; intros st; simpl; [lia|].
  destruct c as [u|u].
  - destruct (assign_hf_token_step now u sid st) as [o [Hf Hc]].
    unfold bind at 1. destruct (_assign_hf_token now u sid st) as [res st1] eqn:E.
    simpl in Hf. subst res. simpl in Hc. specialize (IH st1).
    unfold assign_calls in *. simpl. lia.
  - destruct (release_hf_token_step now u sid st) as [Hf Hc].
    unfold bind at 1. destruct (_release_hf_token now u sid st) as [res st1] eqn:E.
    simpl in Hf. subst res. simpl in Hc. specialize (IH st1).
    unfold assign_calls in *. simpl. lia.
Qed.

Lemma assign_calls_firstn (n : nat) (calls : list ledger_call) :
  assign_calls (firstn n calls) <= assign_calls calls.
Proof.
  revert calls. induction n as [|n IH]; intros [|c cs]; simpl; unfold assign_calls in *;
    simpl; try lia.
  specialize (IH cs). destruct c; simpl; lia.
Qed.

(** C7 (as the code does it): [assign] does not look for an existing active
    Assignment of the identifier, so the bound holds for the call sequences
    that assign the identifier at most once (login always passes a freshly
    minted refresh-token [jti]): starting with no active Assignment for it,
    after every prefix of such a sequence at most one is active. *)
Theorem session_at_most_one_active (now : Z) (sid : string) (calls : list ledger_call)
  (st : State) :
  active_for sid (user_hf_token_assignments st) = 0%nat ->
  assign_calls calls <= 1 ->
  forall n, active_for sid
              (user_hf_token_assignments (snd (run_calls now sid (firstn n calls) st))) <= 1.
Proof.
  intros H0 H1 n.
  pose proof (run_calls_bound now sid (firstn n calls) st).
  pose proof (assign_calls_firstn n calls). lia.
Qed.

Lemma session_at_most_one_active_witness :
  active_for "j1" (user_hf_token_assignments (snd (run_calls 10 "j1"
     [CallRelease 1; CallAssign 1; CallRelease 1] demo_state))) <= 1.
Proof.
  pose proof (session_at_most_one_active 10 "j1" [CallAssign 1; CallRelease 1]
                (snd (_release_hf_token 10 1 "j1" demo_state))) as H.
  specialize (H eq_refl (le_n 1) 2). exact H.
Defined.

(** C7 as stated fails: two [assign] calls on one identifier leave two active
    Assignments for it. *)
Lemma session_two_active_counterexample :
  let st := mkState [] [HuggingFaceToken.mk 1 "hf_one" "one" true 0] [] in
  active_for "s" (user_hf_token_assignments
                    (snd (run_calls 0 "s" [CallAssign 1; CallAssign 1] st))) = 2%nat.
Proof. reflexivity. Qed.

(** ** Cascading revocation *)

Lemma revoke_tokens_eq (now1 now2 : Z) (self : AuthToken.t) (st : State) :
  In self (auth_tokens st) ->
  AuthToken.is_revoked self = false -> AuthToken.token_type self = Refresh ->
  let self' := AuthToken.with_revoked now1 self in
  auth_tokens (snd (revoke now1 now2 self st)) =
  map (fun r => if is_child_of self' r && negb (AuthToken.is_revoked r)
                then AuthToken.with_revoked now2 r else r)
      (map (fun r => if Nat.eqb (AuthToken.id r) (AuthToken.id self) then self' else r)
           (auth_tokens st)).
Proof.
  intros Hin Hr Ht self'. unfold revoke. rewrite Hr. cbn [negb].
  unfold save_token, update_tokens, bind, get, put, ret.
  assert (Hex : existsb (fun r => Nat.eqb (AuthToken.id r)
                                  (AuthToken.id (AuthToken.with_revoked now1 self)))
                       (auth_tokens st) = true).
  { apply existsb_exists. exists self. split; [exact Hin|]. apply Nat.eqb_refl. }
  rewrite Hex. simpl. rewrite Ht. reflexivity.
Qed.

(** C4 (as the code does it): revoking a non-revoked refresh record keeps
    every row, marks the record revoked with the first clock reading, and
    marks each of its non-revoked children revoked with the second clock
    reading (taken after the record was saved); an already revoked child
    is left as it was, keeping its [revoked_at]; afterwards neither the
    record nor any of its children is unrevoked. *)
Theorem revoke_refresh_cascades (now1 now2 : Z) (self : AuthToken.t) (st : State) :
  In self (auth_tokens st) -> NoDup (map AuthToken.id (auth_tokens st)) ->
  AuthToken.is_revoked self = false -> AuthToken.token_type self = Refresh ->
  let l' := auth_tokens (snd (revoke now1 now2 self st)) in
  List.length l' = List.length (auth_tokens st) /\
  In (AuthToken.with_revoked now1 self) l' /\
  (forall r, In r (auth_tokens st) -> is_child_of self r = true ->
             AuthToken.token_type r = Access -> AuthToken.is_revoked r = false ->
             In (AuthToken.with_revoked now2 r) l') /\
  (forall r, In r (auth_tokens st) -> is_child_of self r = true ->
             AuthToken.is_revoked r = true -> In r l') /\
  (forall r, In r l' -> AuthToken.id r = AuthToken.id self \/ is_child_of self r = true ->
             AuthToken.is_revoked r = true).
Proof.
  intros Hin Hnd Hr Ht l'. unfold l'.
  rewrite (revoke_tokens_eq now1 now2 self st Hin Hr Ht).
  set (self' := AuthToken.with_revoked now1 self).
  assert (Hchild : forall r, is_child_of self' r = is_child_of self r) by reflexivity.
  assert (Hother : forall r, In r (auth_tokens st) -> AuthToken.is_revoked r = true ->
                             AuthToken.id r <> AuthToken.id self).
  { intros r Hrin Hrr E. rewrite (NoDup_map_inj _ _ r self Hnd Hrin Hin E) in Hrr. congruence. }
  repeat split.
  - rewrite !length_map. reflexivity.
  - apply in_map_iff. exists self'. split.
    + replace (negb (AuthToken.is_revoked self')) with false by reflexivity.
      rewrite andb_false_r. reflexivity.
    + apply in_map_iff. exists self. rewrite Nat.eqb_refl. auto.
  - intros r Hrin Hc Hta Hrr.
    assert (Hid : AuthToken.id r <> AuthToken.id self).
    { intros E. rewrite (NoDup_map_inj _ _ r self Hnd Hrin Hin E) in Hta. congruence. }
    apply in_map_iff. exists r. split.
    + rewrite Hchild, Hc, Hrr. reflexivity.
    + apply in_map_iff. exists r. split; [|exact Hrin].
      apply Nat.eqb_neq in Hid. rewrite Hid. reflexivity.
  - intros r Hrin Hc Hrr.
    apply in_map_iff. exists r. split.
    + rewrite Hrr. simpl. rewrite andb_false_r. reflexivity.
    + apply in_map_iff. exists r. split; [|exact Hrin].
      assert (Hid := Hother r Hrin Hrr). apply Nat.eqb_neq in Hid. rewrite Hid. reflexivity.
  - intros r' Hr' Hsel.
    apply in_map_iff in Hr' as [y [Hy Hyin]]. apply in_map_iff in Hyin as [x [Hx Hxin]].
    subst r'.
    destruct (Nat.eqb (AuthToken.id x) (AuthToken.id self)) eqn:Eid.
    + subst y. destruct (is_child_of self' self' && negb (AuthToken.is_revoked self'));
        reflexivity.
    + subst y. destruct (is_child_of self' x && negb (AuthToken.is_revoked x)) eqn:E;
        [reflexivity|].
      rewrite Hchild in E. apply Nat.eqb_neq in Eid.
      destruct Hsel as [Hsel|Hsel]; [contradiction|].
      rewrite Hsel in E. simpl in E. apply negb_false_iff in E. exact E.
Qed.

Lemma revoke_refresh_cascades_witness :
  In (AuthToken.with_revoked 7 demo_access_row)
     (auth_tokens (snd (revoke 5 7 demo_refresh_row demo_state))).
Proof.
  destruct (revoke_refresh_cascades 5 7 demo_refresh_row demo_state) as (_ & _ & H & _).
  - simpl; auto.
  - repeat constructor; simpl; intuition discriminate.
  - reflexivity.
  - reflexivity.
  - apply H; [simpl; auto|reflexivity|reflexivity|reflexivity].
Defined.

(** C4 as stated fails: the parent and its child end with different
    [revoked_at] values, one per [timezone.now()] call of [revoke]. *)
Lemma revoke_timestamps_counterexample :
  auth_tokens (snd (revoke 5 7 demo_refresh_row demo_state)) =
    [AuthToken.with_revoked 5 demo_refresh_row; AuthToken.with_revoked 7 demo_access_row] /\
  AuthToken.revoked_at (AuthToken.with_revoked 5 demo_refresh_row)
    <> AuthToken.revoked_at (AuthToken.with_revoked 7 demo_access_row).
Proof. split; [reflexivity|discriminate]. Qed.

(** ** Retention sweep *)

Lemma collected_mono_fuel (m : AuthToken.t -> bool) (l : list AuthToken.t) (f f' : nat)
  (r : AuthToken.t) :
  (f <= f')%nat -> collected m l f r = true -> collected m l f' r = true.
Proof.
  revert f' r. induction f as [|g IH]; intros f' r Hle H.
  - simpl in H. rewrite orb_false_r in H.
    destruct f'; simpl; rewrite H; reflexivity.
  - destruct f' as [|g']; [lia|]. simpl in *.
    destruct (m r); [reflexivity|]. simpl in *.
    destruct (AuthToken.refresh_token r) as [p|]; [|discriminate].
    apply existsb_exists in H as [q [Hq Hc]]. apply andb_prop in Hc as [Hid Hc].
    apply existsb_exists. exists q. split; [exact Hq|].
    rewrite Hid. simpl. apply (IH g'); [lia|exact Hc].
Qed.

Lemma delete_tokens_eq (m : AuthToken.t -> bool) (st : State) :
  auth_tokens (snd (delete_tokens m st)) =
  filter (fun r => negb (collected m (auth_tokens st) (List.length (auth_tokens st)) r))
         (auth_tokens st).
Proof. reflexivity. Qed.

(** A row removed by [delete_tokens] is matched, or its parent row was
    removed too. *)
Lemma delete_tokens_removed (m : AuthToken.t -> bool) (st : State) (r : AuthToken.t) :
  let l := auth_tokens st in
  let l' := auth_tokens (snd (delete_tokens m st)) in
  In r l -> ~ In r l' ->
  m r = true \/ exists q, In q l /\ AuthToken.refresh_token r = Some (AuthToken.id q) /\ ~ In q l'.
Proof.
  intros l l' Hin Hout. unfold l'. rewrite delete_tokens_eq. fold l.
  assert (Hc : collected m l (List.length l) r = true).
  { destruct (collected m l (List.length l) r) eqn:E; [reflexivity|].
    exfalso. apply Hout. unfold l'. rewrite delete_tokens_eq. fold l.
    apply filter_In. rewrite E. auto. }
  destruct (List.length l) as [|f] eqn:Hn.
  - simpl in Hc. rewrite orb_false_r in Hc. auto.
  - simpl in Hc. destruct (m r) eqn:Em; [auto|]. right. simpl in Hc.
    destruct (AuthToken.refresh_token r) as [p|] eqn:Ep; [|discriminate].
    apply existsb_exists in Hc as [q [Hq Hqc]]. apply andb_prop in Hqc as [Hid Hqc].
    apply Nat.eqb_eq in Hid. subst p. exists q. repeat split; [exact Hq|].
    intros Hq'. apply filter_In in Hq' as [_ Hneg].
    rewrite (collected_mono_fuel m l f (S f) q) in Hneg; [discriminate|lia|exact Hqc].
Qed.

Lemma cleanup_expired_tokens_eq (now d : Z) (st : State) :
  cleanup_expired_tokens now d st =
  if cutoff_in_range now d then delete_tokens (purge_match (now - days d)) st
  else (inr OverflowError, st).
Proof.
  unfold cleanup_expired_tokens, cutoff_in_range, timedelta_days, datetime_sub, bind, ret, raise.
  destruct (Z.abs d <=? 999999999)%Z; cbn beta iota; [|reflexivity].
  destruct ((datetime_min <=? now - days d)%Z && (now - days d <=? datetime_max)%Z);
    reflexivity.
Qed.

(** C6 (as the code does it): when [now - timedelta(days=d)] is out of
    Python's range ([|d| > 999999999], or a cutoff outside the years 1 to
    9999), [purge(d)] raises [OverflowError] and deletes nothing.
    Otherwise it removes every record whose [expires_at] or (set)
    [revoked_at] is older than [now - d], and besides these only records
    whose parent record was removed (the [on_delete=CASCADE] of
    [refresh_token]); nothing is added.  Hence for [d >= 0] a non-expired
    record with no [revoked_at] is deleted only through the cascade from
    its deleted parent. *)
Theorem purge_deletes_matches_and_cascade (now d : Z) (st : State) :
  let cutoff := (now - days d)%Z in
  let l := auth_tokens st in
  let l' := auth_tokens (snd (cleanup_expired_tokens now d st)) in
  (cutoff_in_range now d = false -> cleanup_expired_tokens now d st = (inr OverflowError, st)) /\
  (cutoff_in_range now d = true ->
   (forall r, In r l' -> In r l) /\
   (forall r, In r l -> purge_match cutoff r = true -> ~ In r l') /\
   (forall r, In r l -> ~ In r l' ->
      purge_match cutoff r = true \/
      exists q, In q l /\ AuthToken.refresh_token r = Some (AuthToken.id q) /\ ~ In q l') /\
   ((0 <= d)%Z -> forall r, In r l -> ~ In r l' ->
      AuthToken.revoked_at r = None -> (now < AuthToken.expires_at r)%Z ->
      exists q, In q l /\ AuthToken.refresh_token r = Some (AuthToken.id q) /\ ~ In q l')).
Proof.
  intros cutoff l l'.
  split; [intros Hr; rewrite cleanup_expired_tokens_eq, Hr; reflexivity|].
  intros Hok.
  assert (Hl'd : l' = auth_tokens (snd (delete_tokens (purge_match cutoff) st)))
    by (unfold l'; rewrite cleanup_expired_tokens_eq, Hok; reflexivity).
  clearbody l'. subst l'.
  assert (Hl' : auth_tokens (snd (delete_tokens (purge_match cutoff) st))
                = filter (fun r => negb (collected (purge_match cutoff) l (List.length l) r)) l)
    by reflexivity.
  set (l' := auth_tokens (snd (delete_tokens (purge_match cutoff) st))) in *.
  assert (Hrem : forall r, In r l -> ~ In r l' ->
     purge_match cutoff r = true \/
     exists q, In q l /\ AuthToken.refresh_token r = Some (AuthToken.id q) /\ ~ In q l')
    by (intros r; apply (delete_tokens_removed (purge_match cutoff) st r)).
  split; [|split; [|split]].
  - intros r Hr. rewrite Hl' in Hr. apply filter_In in Hr. tauto.
  - intros r Hr Hm Hr'. rewrite Hl' in Hr'. apply filter_In in Hr' as [_ Hneg].
    assert (Hc : forall n, collected (purge_match cutoff) l n r = true)
      by (intros [|n]; simpl; rewrite Hm; reflexivity).
    rewrite Hc in Hneg. discriminate.
  - exact Hrem.
  - intros Hd r Hr Hr' Hrev Hexp.
    destruct (Hrem r Hr Hr') as [Hm|Hq]; [|exact Hq].
    exfalso. unfold purge_match in Hm. rewrite Hrev, orb_false_r in Hm.
    apply Z.ltb_lt in Hm. unfold cutoff, days in Hm. lia.
Qed.

(** C6 as stated fails twice: the cascade deletes a non-expired, non-revoked
    access record whose refresh parent was revoked 31 days ago, and a
    negative retention deletes a fresh record. *)
Lemma purge_counterexample :
  let now := days 100 in
  let parent := AuthToken.mk 1 1 Refresh "h1" "j1" 0 (days 200) (Some (now - days 31)%Z)
                             true None in
  let child := AuthToken.mk 2 1 Access "h2" "a2" (now - 10)%Z (now + 3600)%Z None false
                            (Some 1%nat) in
  (AuthToken.is_revoked child = false /\ (now < AuthToken.expires_at child)%Z /\
   auth_tokens (snd (cleanup_expired_tokens now 30 (mkState [parent; child] [] []))) = []) /\
  auth_tokens (snd (cleanup_expired_tokens now (-1) (mkState [child] [] []))) = [].
Proof. vm_compute. repeat split; reflexivity. Qed.

Lemma purge_deletes_matches_and_cascade_witness :
  let now := days 100 in
  let parent := AuthToken.mk 1 1 Refresh "h1" "j1" 0 (days 200) (Some (now - days 31)%Z)
                             true None in
  let child := AuthToken.mk 2 1 Access "h2" "a2" (now - 10)%Z (now + 3600)%Z None false
                            (Some 1%nat) in
  let st := mkState [parent; child] [] [] in
  exists q, In q (auth_tokens st) /\ AuthToken.refresh_token child = Some (AuthToken.id q) /\
            ~ In q (auth_tokens (snd (cleanup_expired_tokens now 30 st))).
Proof.
  intros now parent child st.
  destruct (purge_deletes_matches_and_cascade now 30 st) as [_ Hok].
  destruct (Hok (eq_refl true)) as (_ & _ & _ & H4).
  apply H4.
  - lia.
  - simpl; auto.
  - vm_compute. intros [].
  - reflexivity.
  - vm_compute. reflexivity.
Defined.

(** ** Logout *)

Lemma collected_incl (m : AuthToken.t -> bool) (l1 l2 : list AuthToken.t) (f : nat)
  (x : AuthToken.t) :
  (forall q, In q l1 -> In q l2) -> collected m l1 f x = true -> collected m l2 f x = true.
Proof.
  intros Hincl. revert x. induction f as [|g IH]; intros x H; [exact H|].
  simpl in *. destruct (m x); [reflexivity|]. simpl in *.
  destruct (AuthToken.refresh_token x) as [p|]; [|discriminate].
  apply existsb_exists in H as [q [Hq Hc]]. apply andb_prop in Hc as [Hid Hc].
  apply existsb_exists. exists q. split; [apply Hincl; exact Hq|].
  rewrite Hid. simpl. apply IH. exact Hc.
Qed.


Lemma collected_self (m : AuthToken.t -> bool) (l : list AuthToken.t) (f : nat)
  (x : AuthToken.t) :
  collected m l f x = false -> m x = false.
Proof. destruct f; simpl; destruct (m x); simpl; congruence. Qed.

Lemma logout_post_found `{TB : TokenBackend} (now : Z) (user : nat) (req : Request)
  (st : State) (s : string) (c : Claims) (r : AuthToken.t) :
  cookie_refresh_token req = Some s -> s <> ""%string ->
  decode now s = Some c -> c_type c = Refresh ->
  first_token (auth_tokens st) (hash_token s) Refresh = Some r ->
  logout_post now user req st =
  (inl (mkResponse 200 clear_cookies),
   snd (delete_tokens (fun x => Nat.eqb (AuthToken.id x) (AuthToken.id r))
          (snd (delete_tokens (is_child_of r)
                  (snd (_release_hf_token now user (c_jti c) st)))))).
Proof.
  intros Hck Hne Hd Ht Hf.
  unfold logout_post, try_except. rewrite Hck.
  apply String.eqb_neq in Hne. rewrite Hne.
  unfold bind at 1 2. rewrite (token_class_ok now Refresh s c st Hd Ht).
  cbn -[first_token delete_tokens _release_hf_token].
  unfold bind at 1. cbn -[first_token delete_tokens].
  rewrite Hf. reflexivity.
Qed.

Lemma release_hf_token_effect (now : Z) (user : nat) (sid : string) (st : State) :
  let L' := user_hf_token_assignments (snd (_release_hf_token now user sid st)) in
  List.length L' = List.length (user_hf_token_assignments st) /\
  forall a, In a L' -> UserHFTokenAssignment.user a = user ->
    UserHFTokenAssignment.session_identifier a = sid -> UserHFTokenAssignment.is_active a = false.
Proof.
  simpl. split; [apply length_map|].
  intros a Ha Hu Hs. apply in_map_iff in Ha as [b [Hb _]].
  destruct (Nat.eqb (UserHFTokenAssignment.user b) user
            && String.eqb (UserHFTokenAssignment.session_identifier b) sid
            && UserHFTokenAssignment.is_active b) eqn:E.
  - subst a. reflexivity.
  - subst a. rewrite Hu, Hs, Nat.eqb_refl, String.eqb_refl in E. exact E.
Qed.




(** C2 (as the code does it): for an authenticated user, the logout handler
    returns success and clears both cookies whenever the refresh cookie is
    absent, empty, or structurally valid, whatever the store holds (the
    record or the Assignment may already be gone). *)
Theorem logout_post_clears_cookies `{TB : TokenBackend} (now : Z) (user : nat) (req : Request)
  (st : State) :
  (forall s, cookie_refresh_token req = Some s -> s <> ""%string ->
     exists c, decode now s = Some c /\ c_type c = Refresh) ->
  fst (logout_post now user req st) = inl (mkResponse 200 clear_cookies).
Proof.
  intros Hv. destruct (cookie_refresh_token req) as [s|] eqn:Hck.
  2:{ unfold logout_post, try_except. rewrite Hck. reflexivity. }
  destruct (String.eqb s "") eqn:Es.
  { unfold logout_post, try_except. rewrite Hck, Es. reflexivity. }
  assert (Hne : s <> ""%string) by (apply String.eqb_neq; exact Es).
  destruct (Hv s eq_refl Hne) as [c [Hd Ht]].
  destruct (first_token (auth_tokens st) (hash_token s) Refresh) as [r|] eqn:Hf.
  - rewrite (logout_post_found now user req st s c r Hck Hne Hd Ht Hf). reflexivity.
  - unfold logout_post, try_except. rewrite Hck, Es.
    unfold bind at 1 2. rewrite (token_class_ok now Refresh s c st Hd Ht).
    cbn -[first_token delete_tokens _release_hf_token].
    unfold bind at 1. cbn -[first_token delete_tokens].
    rewrite Hf. reflexivity.
Qed.

Lemma logout_post_clears_cookies_witness :
  fst (@logout_post demo_backend 10 1 (mkRequest None (Some "rt1"%string) None)
         (mkState [] [] [])) = inl (mkResponse 200 clear_cookies).
Proof.
  apply logout_post_clears_cookies.
  intros s Hs _. injection Hs as <-. exists (mkClaims "j1" 1000 Refresh 1). split; reflexivity.
Defined.

(** C2 as stated fails: with a valid access cookie and a refresh cookie that
    fails the structural check, logout answers 400 and leaves the cookies;
    replaying a completed logout is refused with 401 by authentication,
    again without clearing anything. *)
Lemma logout_not_idempotent_counterexample :
  let req_bad := mkRequest (Some "at1"%string) (Some "rt_forged"%string) None in
  let req := mkRequest (Some "at1"%string) (Some "rt1"%string) None in
  fst (@logout_request demo_backend 10 req_bad demo_state) = inl (mkResponse 400 []) /\
  fst (@logout_request demo_backend 10 req demo_state) = inl (mkResponse 200 clear_cookies) /\
  fst (@logout_request demo_backend 10 req (snd (@logout_request demo_backend 10 req demo_state)))
    = inl (mkResponse 401 []).
Proof. vm_compute. repeat split. Qed.

(** * Further properties of the token store, the pool and the views *)

(** ** Revoking all tokens of a user *)

Lemma revoke_all_user_tokens_eq (now : Z) (user : nat) (st : State) :
  revoke_all_user_tokens now user st =
  (inl tt, set_auth_tokens st
             (map (fun r => if Nat.eqb (AuthToken.user r) user && negb (AuthToken.is_revoked r)
                            then AuthToken.with_revoked now r else r) (auth_tokens st))).
Proof. reflexivity. Qed.

(** [revoke_all_user_tokens] keeps every row, leaves every row of the user
    revoked, stamps [now] on exactly the user's rows that were not revoked,
    and leaves the other users' rows, the already revoked rows (with their
    [revoked_at]), the pool and the ledger as they were. *)
Theorem revoke_all_user_tokens_effect (now : Z) (user : nat) (st : State) :
  let l := auth_tokens st in
  let st' := snd (revoke_all_user_tokens now user st) in
  fst (revoke_all_user_tokens now user st) = inl tt /\
  huggingface_tokens st' = huggingface_tokens st /\
  user_hf_token_assignments st' = user_hf_token_assignments st /\
  List.length (auth_tokens st') = List.length l /\
  (forall x, In x (auth_tokens st') -> AuthToken.user x = user -> AuthToken.is_revoked x = true) /\
  (forall x, In x l -> AuthToken.user x <> user \/ AuthToken.is_revoked x = true ->
             In x (auth_tokens st')) /\
  (forall x, In x l -> AuthToken.user x = user -> AuthToken.is_revoked x = false ->
             In (AuthToken.with_revoked now x) (auth_tokens st')).
Proof.
  intros l st'. unfold st'. rewrite revoke_all_user_tokens_eq. cbn [fst snd auth_tokens
    huggingface_tokens user_hf_token_assignments set_auth_tokens].
  repeat split.
  - apply length_map.
  - intros x Hx Hu. apply in_map_iff in Hx as [y [Hy Hin]].
    destruct (Nat.eqb (AuthToken.user y) user && negb (AuthToken.is_revoked y)) eqn:Ey.
    + subst x. reflexivity.
    + subst x. rewrite Hu, Nat.eqb_refl in Ey. simpl in Ey.
      destruct (AuthToken.is_revoked y); [reflexivity|discriminate].
  - intros x Hx Hor. apply in_map_iff. exists x. split; [|exact Hx].
    destruct Hor as [Hu|Hr].
    + apply Nat.eqb_neq in Hu. rewrite Hu. reflexivity.
    + rewrite Hr, andb_false_r. reflexivity.
  - intros x Hx Hu Hr. apply in_map_iff. exists x. split; [|exact Hx].
    rewrite Hu, Hr, Nat.eqb_refl. reflexivity.
Qed.

(** After [revoke_all_user_tokens] the user has no active session left,
    whatever the clock reads when the sessions are listed. *)
Theorem revoke_all_user_tokens_no_sessions (now t : Z) (user : nat) (st : State) :
  get_user_active_sessions t user (snd (revoke_all_user_tokens now user st)) = [].
Proof.
  assert (Hrev : forall x, In x (auth_tokens (snd (revoke_all_user_tokens now user st))) ->
                 AuthToken.user x = user -> AuthToken.is_revoked x = true).
  { rewrite revoke_all_user_tokens_eq. intros x Hx Hu. cbn in Hx.
    apply in_map_iff in Hx as [y [Hy _]]. subst x.
    destruct (Nat.eqb (AuthToken.user y) user && negb (AuthToken.is_revoked y)) eqn:Ey;
      [reflexivity|].
    rewrite Hu, Nat.eqb_refl in Ey. simpl in Ey.
    destruct (AuthToken.is_revoked y); [reflexivity|discriminate]. }
  unfold get_user_active_sessions. apply filter_all_false.
  intros x Hx. apply in_rev in Hx.
  destruct (Nat.eqb (AuthToken.user x) user) eqn:Eu; [|reflexivity].
  apply Nat.eqb_eq in Eu. rewrite (Hrev x Hx Eu). simpl.
  rewrite andb_false_r. reflexivity.
Qed.

(** Rows of the user after [revoke_all_user_tokens], found by a hash of
    one of the user's rows, are revoked. *)
Lemma revoke_all_user_tokens_hash (now : Z) (user : nat) (st : State) (x y : AuthToken.t) :
  NoDup (map AuthToken.token_hash (auth_tokens st)) ->
  In x (auth_tokens st) -> AuthToken.user x = user ->
  In y (auth_tokens (snd (revoke_all_user_tokens now user st))) ->
  AuthToken.token_hash y = AuthToken.token_hash x ->
  AuthToken.is_revoked y = true.
Proof.
  intros Hnd Hx Hu Hy Hh.
  rewrite revoke_all_user_tokens_eq in Hy. cbn in Hy.
  apply in_map_iff in Hy as [y0 [Hy0 Hin0]].
  assert (Hh0 : AuthToken.token_hash y0 = AuthToken.token_hash x).
  { rewrite <- Hh, <- Hy0.
    destruct (Nat.eqb (AuthToken.user y0) user && negb (AuthToken.is_revoked y0)); reflexivity. }
  pose proof (NoDup_map_inj _ _ _ _ Hnd Hin0 Hx Hh0) as ->.
  subst y. rewrite Hu, Nat.eqb_refl. simpl.
  destruct (AuthToken.is_revoked x) eqn:Er; simpl; [exact Er|reflexivity].
Qed.

(** Forced logout from all devices: once [revoke_all_user_tokens] has run,
    every request authenticated with a token of one of the user's rows is
    refused, and the refresh endpoint answers 401 for every such token
    without writing anything. *)
Theorem revoke_all_user_tokens_locks_out `{TB : TokenBackend} (now t : Z) (user : nat)
  (st : State) (x : AuthToken.t) (req : Request) (raw : raw_token) (rs : string)
  (new_access_token : string) :
  NoDup (map AuthToken.token_hash (auth_tokens st)) ->
  In x (auth_tokens st) -> AuthToken.user x = user ->
  let st' := snd (revoke_all_user_tokens now user st) in
  (raw_token_of req = Some raw -> hash_token (raw_text raw) = AuthToken.token_hash x ->
   exists e, fst (authenticate t req st') = inr e) /\
  (cookie_refresh_token req = Some rs -> hash_token rs = AuthToken.token_hash x ->
   token_refresh_post t req new_access_token st' = (inl (mkResponse 401 []), st')).
Proof.
  intros Hnd Hx Hu st'.
  assert (Hrev : forall y, In y (auth_tokens st') ->
                 AuthToken.token_hash y = AuthToken.token_hash x -> AuthToken.is_revoked y = true)
    by (intros y; apply (revoke_all_user_tokens_hash now user st x y Hnd Hx Hu)).
  clearbody st'. split.
  - intros Hraw Hh. unfold authenticate. rewrite Hraw.
    unfold get_validated_token. destruct (decode t (raw_text raw)) as [c|]; [|eexists; reflexivity].
    destruct (token_type_eqb (c_type c) Access); [|eexists; reflexivity].
    destruct raw as [raw|raw]; [|eexists; reflexivity]. simpl in Hh.
    cbn -[db_check].
    unfold db_check. rewrite Hh.
    destruct (first_token (auth_tokens st') (AuthToken.token_hash x) Access) as [y|] eqn:Ef;
      [|eexists; reflexivity].
    unfold first_token in Ef. apply find_rev_some in Ef as [Hy Hp].
    apply andb_true_iff in Hp as [Hp _]. apply String.eqb_eq in Hp.
    rewrite (Hrev y Hy Hp). eexists; reflexivity.
  - intros Hck Hh. unfold token_refresh_post, try_except. rewrite Hck.
    destruct (String.eqb rs "") eqn:Es; [reflexivity|].
    cbn -[refresh_lookup]. rewrite Hh.
    replace (refresh_lookup (auth_tokens st') (AuthToken.token_hash x)) with (@None AuthToken.t);
      [reflexivity|].
    symmetry. unfold refresh_lookup. apply find_rev_none.
    intros y Hy. destruct (String.eqb (AuthToken.token_hash y) (AuthToken.token_hash x)) eqn:E;
      [|reflexivity].
    apply String.eqb_eq in E.
    rewrite (Hrev y Hy E). rewrite andb_false_r. reflexivity.
Qed.

Lemma revoke_all_user_tokens_locks_out_witness :
  NoDup (map AuthToken.token_hash (auth_tokens demo_state)) /\
  In demo_access_row (auth_tokens demo_state) /\ AuthToken.user demo_access_row = 1%nat /\
  exists e, fst (@authenticate demo_backend 10 (mkRequest (Some "at1"%string) None None)
                   (snd (revoke_all_user_tokens 5 1 demo_state))) = inr e.
Proof.
  assert (Hnd : NoDup (map AuthToken.token_hash (auth_tokens demo_state)))
    by (repeat constructor; simpl; intuition discriminate).
  assert (Hin : In demo_access_row (auth_tokens demo_state)) by (simpl; auto).
  split; [exact Hnd|]. split; [exact Hin|]. split; [reflexivity|].
  apply (proj1 (@revoke_all_user_tokens_locks_out demo_backend 5 10 1 demo_state demo_access_row
                  (mkRequest (Some "at1"%string) None None) (RawStr "at1") "at1" "at2"
                  Hnd Hin eq_refl));
    reflexivity.
Defined.

(** ** Listing active sessions *)

(** [get_user_active_sessions] lists exactly the user's refresh rows that
    [is_valid] accepts, except those whose [expires_at] equals the current
    time: the listing uses [expires_at > now], [is_expired] uses
    [now > expires_at]. *)
Theorem active_sessions_iff (now : Z) (user : nat) (st : State) (x : AuthToken.t) :
  In x (get_user_active_sessions now user st) <->
  In x (auth_tokens st) /\ AuthToken.user x = user /\ AuthToken.token_type x = Refresh /\
  AuthToken.is_valid now x = true /\ AuthToken.expires_at x <> now.
Proof.
  unfold get_user_active_sessions, AuthToken.is_valid, AuthToken.is_expired.
  rewrite filter_In, <- in_rev.
  rewrite !andb_true_iff, Nat.eqb_eq, token_type_eqb_true, !negb_true_iff, Z.ltb_lt, Z.ltb_ge.
  split.
  - intros (Hin & ((Hu & Ht) & Hr) & Hlt). repeat split; auto; lia.
  - intros (Hin & Hu & Ht & (Hr & Hle) & Hne). repeat split; auto; lia.
Qed.

(** ** Revocation never undoes a revocation *)

Lemma save_token_rows (self : AuthToken.t) (st : State) :
  let l := auth_tokens st in
  let st' := snd (save_token self st) in
  save_token self st = (inl tt, st') /\
  huggingface_tokens st' = huggingface_tokens st /\
  user_hf_token_assignments st' = user_hf_token_assignments st /\
  (forall x, In x (auth_tokens st') -> x = self \/ (In x l /\ AuthToken.id x <> AuthToken.id self)) /\
  (forall x, In x l -> exists y, In y (auth_tokens st') /\ AuthToken.id y = AuthToken.id x).
Proof.
  intros l st'. unfold st', l, save_token, bind, get, put. cbn beta iota.
  destruct (existsb (fun r => Nat.eqb (AuthToken.id r) (AuthToken.id self)) (auth_tokens st))
    eqn:Ex; cbn [snd auth_tokens huggingface_tokens user_hf_token_assignments set_auth_tokens];
    (split; [reflexivity|]); (split; [reflexivity|]); (split; [reflexivity|]).
  - split.
    + intros x Hx. apply in_map_iff in Hx as [y [Hy Hin]].
      destruct (Nat.eqb (AuthToken.id y) (AuthToken.id self)) eqn:E.
      * left. symmetry. exact Hy.
      * right. subst y. split; [exact Hin|]. apply Nat.eqb_neq. exact E.
    + intros x Hx. exists (if Nat.eqb (AuthToken.id x) (AuthToken.id self) then self else x).
      split; [apply in_map_iff; exists x; split; [reflexivity|exact Hx]|].
      destruct (Nat.eqb (AuthToken.id x) (AuthToken.id self)) eqn:E; [|reflexivity].
      symmetry. apply Nat.eqb_eq. exact E.
  - split.
    + intros x Hx. apply in_app_or in Hx as [Hx|[<-|[]]]; [right|left; reflexivity].
      split; [exact Hx|]. intros E.
      assert (Hc : existsb (fun r => Nat.eqb (AuthToken.id r) (AuthToken.id self))
                           (auth_tokens st) = true)
        by (apply existsb_exists; exists x; split; [exact Hx|apply Nat.eqb_eq; exact E]).
      congruence.
    + intros x Hx. exists x. split; [apply in_or_app; left; exact Hx|reflexivity].
Qed.

Lemma update_tokens_eq (m : AuthToken.t -> bool) (f : AuthToken.t -> AuthToken.t) (st : State) :
  update_tokens m f st =
  (inl tt, set_auth_tokens st (map (fun r => if m r then f r else r) (auth_tokens st))).
Proof. reflexivity. Qed.

Lemma revoke_rows (now1 now2 : Z) (self : AuthToken.t) (st : State) :
  let l := auth_tokens st in
  let st' := snd (revoke now1 now2 self st) in
  revoke now1 now2 self st = (inl tt, st') /\
  huggingface_tokens st' = huggingface_tokens st /\
  user_hf_token_assignments st' = user_hf_token_assignments st /\
  (forall x, In x (auth_tokens st') -> AuthToken.is_revoked x = true \/
     (In x l /\ (AuthToken.is_revoked self = false -> AuthToken.id x <> AuthToken.id self))) /\
  (forall x, In x l -> exists y, In y (auth_tokens st') /\ AuthToken.id y = AuthToken.id x).
Proof.
  intros l st'. unfold st', l, revoke.
  destruct (AuthToken.is_revoked self) eqn:Er; cbn [negb].
  { cbn. split; [reflexivity|]. split; [reflexivity|]. split; [reflexivity|]. split.
    - intros x Hx. right. split; [exact Hx|discriminate].
    - intros x Hx. exists x. auto. }
  lazy zeta.
  destruct (save_token_rows (AuthToken.with_revoked now1 self) st) as (Hs & Hp1 & Ha1 & Hr1 & Hi1).
  set (st1 := snd (save_token (AuthToken.with_revoked now1 self) st)) in *.
  unfold bind. rewrite Hs. cbn beta iota.
  assert (Hsr : forall x, In x (auth_tokens st1) -> AuthToken.is_revoked x = true \/
            (In x (auth_tokens st) /\ AuthToken.id x <> AuthToken.id self)).
  { intros x Hx. destruct (Hr1 x Hx) as [->|H]; [left; reflexivity|right; exact H]. }
  destruct (token_type_eqb (AuthToken.token_type (AuthToken.with_revoked now1 self)) Refresh).
  - rewrite update_tokens_eq.
    cbn [snd auth_tokens huggingface_tokens user_hf_token_assignments set_auth_tokens].
    split; [reflexivity|]. split; [exact Hp1|]. split; [exact Ha1|]. split.
    + intros x Hx. apply in_map_iff in Hx as [y [Hy Hin]].
      destruct (is_child_of (AuthToken.with_revoked now1 self) y && negb (AuthToken.is_revoked y)).
      * left. subst x. reflexivity.
      * subst x. destruct (Hsr y Hin) as [H|[H1 H2]]; [left; exact H|right; auto].
    + intros x Hx. destruct (Hi1 x Hx) as [y [Hy Hid]].
      exists (if is_child_of (AuthToken.with_revoked now1 self) y && negb (AuthToken.is_revoked y)
              then AuthToken.with_revoked now2 y else y).
      split; [apply in_map_iff; exists y; split; [reflexivity|exact Hy]|].
      destruct (is_child_of (AuthToken.with_revoked now1 self) y && negb (AuthToken.is_revoked y));
        exact Hid.
  - cbn. split; [reflexivity|]. split; [exact Hp1|]. split; [exact Ha1|]. split.
    + intros x Hx. destruct (Hsr x Hx) as [H|[H1 H2]]; [left; exact H|right; auto].
    + exact Hi1.
Qed.

(** [AuthToken.revoke] never turns a revoked row back into an unrevoked one,
    never drops a row (every primary key stays present), creates no
    unrevoked row, leaves the row of the revoked record revoked, and touches
    neither the pool nor the ledger. *)
Theorem revoke_never_unrevokes (now1 now2 : Z) (self : AuthToken.t) (st : State) :
  let l := auth_tokens st in
  let st' := snd (revoke now1 now2 self st) in
  fst (revoke now1 now2 self st) = inl tt /\
  huggingface_tokens st' = huggingface_tokens st /\
  user_hf_token_assignments st' = user_hf_token_assignments st /\
  (forall x, In x (auth_tokens st') -> AuthToken.is_revoked x = false -> In x l) /\
  (forall i, (forall x, In x l -> AuthToken.id x = i -> AuthToken.is_revoked x = true) ->
             forall x, In x (auth_tokens st') -> AuthToken.id x = i ->
                       AuthToken.is_revoked x = true) /\
  (forall x, In x l -> exists y, In y (auth_tokens st') /\ AuthToken.id y = AuthToken.id x) /\
  (AuthToken.is_revoked self = false ->
   forall x, In x (auth_tokens st') -> AuthToken.id x = AuthToken.id self ->
             AuthToken.is_revoked x = true).
Proof.
  intros l st'. destruct (revoke_rows now1 now2 self st) as (Hs & Hp & Ha & Hr & Hi).
  fold l st' in Hs, Hp, Ha, Hr, Hi.
  rewrite Hs. split; [reflexivity|]. split; [exact Hp|]. split; [exact Ha|]. split; [|split; [|split]].
  - intros x Hx Hn. destruct (Hr x Hx) as [H|[H _]]; [congruence|exact H].
  - intros i Hall x Hx Hid. destruct (Hr x Hx) as [H|[H _]]; [exact H|exact (Hall x H Hid)].
  - exact Hi.
  - intros Hn x Hx Hid. destruct (Hr x Hx) as [H|[_ H]]; [exact H|]. exfalso. exact (H Hn Hid).
Qed.

(** ** The admin action [revoke_tokens] *)

Lemma revoke_tokens_loop_shape (clock : nat -> Z * Z) (qs : list AuthToken.t) :
  forall (n : nat) (st : State),
  let st' := snd (revoke_tokens_loop clock n qs st) in
  fst (revoke_tokens_loop clock n qs st) = inl (n + List.length qs)%nat /\
  huggingface_tokens st' = huggingface_tokens st /\
  user_hf_token_assignments st' = user_hf_token_assignments st /\
  (forall i, (forall x, In x (auth_tokens st) -> AuthToken.id x = i ->
                        AuthToken.is_revoked x = true) ->
             forall x, In x (auth_tokens st') -> AuthToken.id x = i ->
                       AuthToken.is_revoked x = true) /\
  (forall x, In x (auth_tokens st) -> exists y, In y (auth_tokens st') /\
                                                AuthToken.id y = AuthToken.id x) /\
  (forall t, In t qs -> AuthToken.is_revoked t = false ->
   forall x, In x (auth_tokens st') -> AuthToken.id x = AuthToken.id t ->
             AuthToken.is_revoked x = true).
Proof.
  induction qs as [|t qs IH]; intros n st st'.
  - unfold st'. cbn. rewrite Nat.add_0_r.
    split; [reflexivity|]. split; [reflexivity|]. split; [reflexivity|]. split; [auto|].
    split; [|intros ? []]. intros x Hx. exists x. auto.
  - destruct (revoke_rows (fst (clock n)) (snd (clock n)) t st) as (Hs & Hp & Ha & Hr & Hi).
    set (st1 := snd (revoke (fst (clock n)) (snd (clock n)) t st)) in *.
    assert (Hst : revoke_tokens_loop clock n (t :: qs) st = revoke_tokens_loop clock (S n) qs st1).
    { cbn [revoke_tokens_loop]. unfold bind at 1. rewrite Hs. reflexivity. }
    unfold st'. rewrite Hst.
    destruct (IH (S n) st1) as (Hf & Hp' & Ha' & Hm & Hi' & Hq).
    assert (Hm1 : forall i, (forall x, In x (auth_tokens st) -> AuthToken.id x = i ->
                                       AuthToken.is_revoked x = true) ->
                  forall x, In x (auth_tokens st1) -> AuthToken.id x = i ->
                            AuthToken.is_revoked x = true).
    { intros i Hall x Hx Hid. destruct (Hr x Hx) as [H|[H _]]; [exact H|exact (Hall x H Hid)]. }
    split; [rewrite Hf; simpl; f_equal; lia|].
    split; [rewrite Hp'; exact Hp|]. split; [rewrite Ha'; exact Ha|]. split; [|split].
    + intros i Hall. apply Hm. apply Hm1. exact Hall.
    + intros x Hx. destruct (Hi x Hx) as [y [Hy Hid]]. destruct (Hi' y Hy) as [z [Hz Hzid]].
      exists z. split; [exact Hz|congruence].
    + intros u [<-|Hu] Hn.
      * apply Hm. intros x Hx Hid. destruct (Hr x Hx) as [H|[_ H]]; [exact H|].
        exfalso. exact (H Hn Hid).
      * exact (Hq u Hu Hn).
Qed.

(** The admin action "Revoke selected tokens" reports as many revocations
    as tokens were selected, and afterwards every selected token's row is
    still present and revoked, including the rows that were already revoked
    when the queryset was fetched and the children revoked by a cascade
    before their own turn; the pool and the ledger are untouched. *)
Theorem admin_revoke_tokens_revokes_selection (clock : nat -> Z * Z)
  (queryset : list AuthToken.t) (st : State) :
  NoDup (map AuthToken.id (auth_tokens st)) ->
  (forall t, In t queryset -> In t (auth_tokens st)) ->
  let st' := snd (revoke_tokens clock queryset st) in
  fst (revoke_tokens clock queryset st) = inl (List.length queryset) /\
  huggingface_tokens st' = huggingface_tokens st /\
  user_hf_token_assignments st' = user_hf_token_assignments st /\
  (forall t, In t queryset ->
     (exists y, In y (auth_tokens st') /\ AuthToken.id y = AuthToken.id t) /\
     (forall y, In y (auth_tokens st') -> AuthToken.id y = AuthToken.id t ->
                AuthToken.is_revoked y = true)).
Proof.
  intros Hnd Hsel st'. unfold revoke_tokens in *.
  destruct (revoke_tokens_loop_shape clock queryset 0 st) as (Hf & Hp & Ha & Hm & Hi & Hq).
  fold st' in Hp, Ha, Hm, Hi, Hq.
  split; [exact Hf|]. split; [exact Hp|]. split; [exact Ha|].
  intros t Ht. split; [exact (Hi t (Hsel t Ht))|].
  destruct (AuthToken.is_revoked t) eqn:Er.
  - apply Hm. intros x Hx Hid.
    rewrite (NoDup_map_inj _ _ _ _ Hnd Hx (Hsel t Ht) Hid). exact Er.
  - exact (Hq t Ht Er).
Qed.

Lemma admin_revoke_tokens_revokes_selection_witness :
  fst (revoke_tokens (fun k => (Z.of_nat k, Z.of_nat k)) [demo_access_row; demo_refresh_row]
         demo_state) = inl 2%nat.
Proof.
  destruct (admin_revoke_tokens_revokes_selection (fun k => (Z.of_nat k, Z.of_nat k))
              [demo_access_row; demo_refresh_row] demo_state) as [H _].
  - repeat constructor; simpl; intuition discriminate.
  - intros t [<-|[<-|[]]]; simpl; auto.
  - exact H.
Defined.

(** ** Issuing a pair of tokens: registration and login *)

Lemma find_unique {A} (p : A -> bool) (l : list A) x :
  In x l -> p x = true -> (forall y, In y l -> p y = true -> y = x) -> find p l = Some x.
Proof.
  intros Hin Hp Hu. destruct (find p l) eqn:E.
  - apply find_some in E as [Hin' Hp']. f_equal. apply Hu; assumption.
  - exfalso. eapply find_none in E; [|exact Hin]. congruence.
Qed.

Lemma save_pair_fresh `{TB : TokenBackend} {B : Type} (now : Z) (user : nat) (rs acc : string)
  (cr ca : Claims) (st : State) (K : M B) :
  decode now rs = Some cr -> c_type cr = Refresh ->
  decode now acc = Some ca -> c_type ca = Access ->
  hash_token rs <> hash_token acc -> c_jti cr <> c_jti ca ->
  (forall q, In q (auth_tokens st) ->
     AuthToken.token_hash q <> hash_token rs /\ AuthToken.token_hash q <> hash_token acc /\
     AuthToken.jti q <> c_jti cr /\ AuthToken.jti q <> c_jti ca) ->
  let rr := AuthToken.mk (next_id (auth_tokens st)) user Refresh (hash_token rs) (c_jti cr) now
                         (c_exp cr) None false None in
  let ar := AuthToken.mk (next_id (auth_tokens st ++ [rr])) user Access (hash_token acc)
                         (c_jti ca) now (c_exp ca) None false (Some (AuthToken.id rr)) in
  bind (save_token_to_db now user rs Refresh None)
       (fun o => bind (save_token_to_db now user acc Access (Some o)) (fun _ => K)) st
  = K (set_auth_tokens st (auth_tokens st ++ [rr; ar])).
Proof.
  intros Hdr Htr Hda Hta Hh Hj Hfresh rr ar.
  erewrite bind_inl.
  2:{ apply save_token_to_db_fresh; [exact Hdr|exact Htr|].
      intros q Hq; destruct (Hfresh q Hq) as (? & ? & ? & ?); auto. }
  erewrite bind_inl.
  2:{ apply save_token_to_db_fresh; [exact Hda|exact Hta|].
      intros q Hq. simpl in Hq. apply in_app_or in Hq as [Hq|[<-|[]]].
      - destruct (Hfresh q Hq) as (? & ? & ? & ?); auto.
      - simpl; auto. }
  f_equal. destruct st as [l p a]. unfold set_auth_tokens. cbn.
  rewrite <- app_assoc. reflexivity.
Qed.

Lemma assign_hf_token_active (now : Z) (user : nat) (sid : string) (st : State) :
  (exists tk, In tk (huggingface_tokens st) /\ HuggingFaceToken.is_active tk = true) ->
  exists sel, In sel (huggingface_tokens st) /\ HuggingFaceToken.is_active sel = true /\
    _assign_hf_token now user sid st =
    (inl (Some sel),
     set_assignments st (user_hf_token_assignments st ++
                         [UserHFTokenAssignment.mk user (HuggingFaceToken.id sel) now None true sid])).
Proof.
  intros [tk0 [Hin0 Hact0]].
  set (L := user_hf_token_assignments st).
  set (P := filter HuggingFaceToken.is_active (huggingface_tokens st)).
  assert (HP : rev P <> []).
  { intros E. assert (H : In tk0 (rev P)) by (apply in_rev; rewrite rev_involutive;
      apply filter_In; auto). rewrite E in H; contradiction. }
  destruct (sort_by_count_head (active_count L) (rev P) HP)
    as (sel & rest & l1 & l2 & Hs & Hl & _ & _).
  assert (Hsel : In sel P) by (apply in_rev; rewrite Hl; apply in_or_app; simpl; auto).
  apply filter_In in Hsel as [Hsel_in Hsel_act].
  exists sel. split; [exact Hsel_in|]. split; [exact Hsel_act|].
  unfold _assign_hf_token, bind, get, put, ret. cbn beta iota.
  rewrite filter_rev. fold P. fold L.
  destruct (rev P) as [|x xs] eqn:ErP; [congruence|].
  rewrite Hs. reflexivity.
Qed.

Lemma get_api_token_congr (default : string) (st st' : State) (user : option nat) :
  huggingface_tokens st' = huggingface_tokens st ->
  user_hf_token_assignments st' = user_hf_token_assignments st ->
  _get_api_token default st' user = _get_api_token default st user.
Proof.
  intros Hp Ha. unfold _get_api_token, first_active_assignment, hf_token_of.
  rewrite Hp, Ha. reflexivity.
Qed.

(** [RegisterView.create] stores the refresh record and then one access
    record parented to it, sets both cookies with 201, and assigns no pool
    token: the pool, the ledger and hence the credential the chat service
    would use for the user are as before the registration. *)
Theorem register_issues_pair_without_assignment `{TB : TokenBackend} (now : Z) (user : nat)
  (rs acc : string) (cr ca : Claims) (st : State) (default : string) :
  decode now rs = Some cr -> c_type cr = Refresh ->
  decode now acc = Some ca -> c_type ca = Access ->
  hash_token rs <> hash_token acc -> c_jti cr <> c_jti ca ->
  (forall q, In q (auth_tokens st) ->
     AuthToken.token_hash q <> hash_token rs /\ AuthToken.token_hash q <> hash_token acc /\
     AuthToken.jti q <> c_jti cr /\ AuthToken.jti q <> c_jti ca) ->
  let st' := snd (register_create now user rs acc st) in
  fst (register_create now user rs acc st)
    = inl (mkResponse 201 [SetCookie "access_token" acc; SetCookie "refresh_token" rs]) /\
  huggingface_tokens st' = huggingface_tokens st /\
  user_hf_token_assignments st' = user_hf_token_assignments st /\
  _get_api_token default st' (Some user) = _get_api_token default st (Some user) /\
  exists rr ar, auth_tokens st' = auth_tokens st ++ [rr; ar] /\
    AuthToken.user rr = user /\ AuthToken.token_type rr = Refresh /\
    AuthToken.token_hash rr = hash_token rs /\ AuthToken.refresh_token rr = None /\
    AuthToken.user ar = user /\ AuthToken.token_type ar = Access /\
    AuthToken.token_hash ar = hash_token acc /\
    AuthToken.refresh_token ar = Some (AuthToken.id rr).
Proof.
  intros Hdr Htr Hda Hta Hh Hj Hfresh st'. unfold st', register_create.
  rewrite (save_pair_fresh now user rs acc cr ca st _ Hdr Htr Hda Hta Hh Hj Hfresh).
  cbn [fst snd ret]. split; [reflexivity|].
  split; [reflexivity|]. split; [reflexivity|]. split; [apply get_api_token_congr; reflexivity|].
  eexists _, _. split; [reflexivity|]. repeat split.
Qed.

Lemma register_issues_pair_without_assignment_witness :
  fst (@register_create demo_backend 10 1 "rt1" "at1" (mkState [] [] []))
    = inl (mkResponse 201 [SetCookie "access_token" "at1"; SetCookie "refresh_token" "rt1"]).
Proof.
  apply (@register_issues_pair_without_assignment demo_backend 10 1 "rt1" "at1"
           (mkClaims "j1" 1000 Refresh 1) (mkClaims "a1" 500 Access 1) (mkState [] [] []) ""%string);
    try reflexivity; try discriminate.
  intros q [].
Defined.

(** An assignment made while some pool entry is active becomes the user's
    current Assignment, and the chat service then resolves the user's
    credential to the selected entry's token (pool primary keys being
    unique); the records and the pool are not touched. *)
Theorem assign_then_chat_uses_assigned_token (now : Z) (user : nat) (sid : string)
  (st : State) (default : string) :
  (exists tk, In tk (huggingface_tokens st) /\ HuggingFaceToken.is_active tk = true) ->
  NoDup (map HuggingFaceToken.id (huggingface_tokens st)) ->
  let st' := snd (_assign_hf_token now user sid st) in
  auth_tokens st' = auth_tokens st /\
  huggingface_tokens st' = huggingface_tokens st /\
  exists sel, fst (_assign_hf_token now user sid st) = inl (Some sel) /\
    In sel (huggingface_tokens st) /\ HuggingFaceToken.is_active sel = true /\
    user_hf_token_assignments st' = user_hf_token_assignments st ++
      [UserHFTokenAssignment.mk user (HuggingFaceToken.id sel) now None true sid] /\
    current_assignment st' user
      = Some (UserHFTokenAssignment.mk user (HuggingFaceToken.id sel) now None true sid) /\
    _get_api_token default st' (Some user) = HuggingFaceToken.token sel.
Proof.
  intros Hpool Hnd st'.
  destruct (assign_hf_token_active now user sid st Hpool) as (sel & Hin & Hact & Has).
  set (a := UserHFTokenAssignment.mk user (HuggingFaceToken.id sel) now None true sid) in *.
  unfold st'. rewrite Has. cbn [fst snd].
  split; [reflexivity|]. split; [reflexivity|].
  exists sel. split; [reflexivity|]. split; [exact Hin|]. split; [exact Hact|].
  split; [reflexivity|].
  set (stF := set_assignments st (user_hf_token_assignments st ++ [a])).
  assert (HpF : huggingface_tokens stF = huggingface_tokens st) by reflexivity.
  assert (HaF : user_hf_token_assignments stF = user_hf_token_assignments st ++ [a])
    by reflexivity.
  clearbody stF.
  assert (HF : first_active_assignment stF user = Some (a, sel)).
  { unfold first_active_assignment. rewrite HaF, rev_app_distr. cbn [rev app].
    unfold a at 1 2. cbn [UserHFTokenAssignment.user UserHFTokenAssignment.is_active].
    rewrite Nat.eqb_refl. cbn [andb].
    replace (hf_token_of stF a) with (Some sel); [reflexivity|].
    symmetry. unfold hf_token_of. rewrite HpF. apply find_unique; [exact Hin| |].
    - apply Nat.eqb_refl.
    - intros y Hy Hp. apply Nat.eqb_eq in Hp.
      exact (NoDup_map_inj _ _ _ _ Hnd Hy Hin Hp). }
  split.
  - unfold current_assignment. rewrite HF. reflexivity.
  - unfold _get_api_token. rewrite HF, Hact. reflexivity.
Qed.

Lemma assign_then_chat_uses_assigned_token_witness :
  _get_api_token "dflt" (snd (_assign_hf_token 10 1 "j1"
                               (mkState [] [HuggingFaceToken.mk 1 "hf_one" "one" true 0] [])))
                 (Some 1%nat) = "hf_one"%string.
Proof.
  destruct (assign_then_chat_uses_assigned_token 10 1 "j1"
              (mkState [] [HuggingFaceToken.mk 1 "hf_one" "one" true 0] []) "dflt")
    as (_ & _ & sel & Hf & Hin & _ & _ & _ & Htok).
  - eexists. split; [left; reflexivity|reflexivity].
  - repeat constructor. simpl. tauto.
  - rewrite Htok. destruct Hin as [<-|[]]. reflexivity.
Defined.

(** ** Toggling a pool entry *)

Lemma find_map {A B} (p : B -> bool) (g : A -> B) (l : list A) :
  find p (map g l) = option_map g (find (fun x => p (g x)) l).
Proof. induction l as [|a l IH]; simpl; [reflexivity|]. destruct (p (g a)); [reflexivity|exact IH]. Qed.

Lemma find_ext {A} (p q : A -> bool) (l : list A) :
  (forall x, In x l -> p x = q x) -> find p l = find q l.
Proof.
  induction l as [|a l IH]; simpl; intros H; [reflexivity|].
  rewrite (H a (or_introl eq_refl)). destruct (q a); [reflexivity|]. apply IH; auto.
Qed.

Lemma toggle_active_found (now : Z) (pk : nat) (st : State) (tk : HuggingFaceToken.t) :
  find (fun t => Nat.eqb (HuggingFaceToken.id t) pk) (huggingface_tokens st) = Some tk ->
  toggle_active now pk st =
  (inl (Some (negb (HuggingFaceToken.is_active tk))),
   set_huggingface_tokens st
     (map (fun t => if Nat.eqb (HuggingFaceToken.id t) pk
                    then HuggingFaceToken.mk (HuggingFaceToken.id tk) (HuggingFaceToken.token tk)
                           (HuggingFaceToken.name tk) (negb (HuggingFaceToken.is_active tk)) now
                    else t) (huggingface_tokens st))).
Proof. intros H. unfold toggle_active, bind, get, put, ret. cbn beta iota. rewrite H. reflexivity. Qed.


Lemma first_active_assignment_pool (st st' : State) (u : nat)
  (g : HuggingFaceToken.t -> HuggingFaceToken.t) :
  user_hf_token_assignments st' = user_hf_token_assignments st ->
  (forall b, hf_token_of st' b = option_map g (hf_token_of st b)) ->
  first_active_assignment st' u =
  option_map (fun p => (fst p, g (snd p))) (first_active_assignment st u).
Proof.
  intros HL Hh. unfold first_active_assignment. rewrite HL.
  induction (rev (user_hf_token_assignments st)) as [|b l IH]; simpl; [reflexivity|].
  destruct (Nat.eqb (UserHFTokenAssignment.user b) u && UserHFTokenAssignment.is_active b);
    [|exact IH].
  rewrite Hh. destruct (hf_token_of st b); simpl; [reflexivity|exact IH].
Qed.



(** Deactivating the pool entry of a user's current Assignment does not
    release the Assignment: the current-assignment endpoint still reports
    it, while the chat service falls back to the default credential. *)
Theorem toggle_active_falls_back (now : Z) (default : string) (st : State) (u : nat)
  (a : UserHFTokenAssignment.t) (tk : HuggingFaceToken.t) :
  first_active_assignment st u = Some (a, tk) -> HuggingFaceToken.is_active tk = true ->
  let st' := snd (toggle_active now (HuggingFaceToken.id tk) st) in
  fst (toggle_active now (HuggingFaceToken.id tk) st) = inl (Some false) /\
  auth_tokens st' = auth_tokens st /\
  user_hf_token_assignments st' = user_hf_token_assignments st /\
  current_assignment st' u = Some a /\
  _get_api_token default st' (Some u) = default.
Proof.
  intros Hf Hact st'.
  assert (Htk : hf_token_of st a = Some tk /\ In tk (huggingface_tokens st)).
  { unfold first_active_assignment in Hf.
    induction (rev (user_hf_token_assignments st)) as [|b l IH]; simpl in Hf; [discriminate|].
    destruct (Nat.eqb (UserHFTokenAssignment.user b) u && UserHFTokenAssignment.is_active b);
      [|exact (IH Hf)].
    destruct (hf_token_of st b) as [t|] eqn:Eb; [|exact (IH Hf)].
    injection Hf as <- <-. split; [exact Eb|].
    unfold hf_token_of in Eb. apply find_some in Eb. tauto. }
  destruct Htk as [Htk Hin].
  set (pk := HuggingFaceToken.id tk) in *.
  assert (Ef : find (fun t => Nat.eqb (HuggingFaceToken.id t) pk) (huggingface_tokens st) = Some tk).
  { unfold hf_token_of in Htk. pose proof Htk as H. apply find_some in H as [_ H].
    apply Nat.eqb_eq in H. unfold pk. rewrite H. exact Htk. }
  unfold st'. rewrite (toggle_active_found now pk st tk Ef). cbn [fst snd].
  split; [rewrite Hact; reflexivity|]. split; [reflexivity|]. split; [reflexivity|].
  set (tk' := HuggingFaceToken.mk (HuggingFaceToken.id tk) (HuggingFaceToken.token tk)
                (HuggingFaceToken.name tk) (negb (HuggingFaceToken.is_active tk)) now).
  set (g := fun t => if Nat.eqb (HuggingFaceToken.id t) pk then tk' else t).
  assert (Hgid : forall t, HuggingFaceToken.id (g t) = HuggingFaceToken.id t).
  { intros t. unfold g. destruct (Nat.eqb (HuggingFaceToken.id t) pk) eqn:E; [|reflexivity].
    apply Nat.eqb_eq in E. simpl. unfold pk in E. congruence. }
  assert (HF : first_active_assignment (set_huggingface_tokens st (map g (huggingface_tokens st))) u
               = Some (a, tk')).
  { rewrite (first_active_assignment_pool st
               (set_huggingface_tokens st (map g (huggingface_tokens st))) u g eq_refl).
    - rewrite Hf. simpl. unfold g. rewrite Nat.eqb_refl. reflexivity.
    - intros b. unfold hf_token_of. cbn [huggingface_tokens set_huggingface_tokens].
      rewrite find_map. f_equal. apply find_ext. intros x _. rewrite Hgid. reflexivity. }
  split.
  - unfold current_assignment. rewrite HF. reflexivity.
  - unfold _get_api_token. rewrite HF. unfold tk'. cbn [HuggingFaceToken.is_active].
    rewrite Hact. reflexivity.
Qed.

Lemma toggle_active_falls_back_witness :
  _get_api_token "dflt" (snd (toggle_active 5 1 demo_state)) (Some 1%nat) = "dflt"%string.
Proof.
  apply (toggle_active_falls_back 5 "dflt" demo_state 1 (UserHFTokenAssignment.mk 1 1 0 None true "j1")
           (HuggingFaceToken.mk 1 "hf_one" "one" true 0)); reflexivity.
Defined.

(** ** Outcomes of the refresh and logout endpoints *)

(** [TokenRefreshView.post] either refuses with 401 and writes nothing, or
    answers 200 after appending exactly one access record, parented to a
    valid refresh record of the store and owned by its user. *)
Theorem token_refresh_outcomes `{TB : TokenBackend} (now : Z) (req : Request)
  (new_access_token : string) (st : State) :
  let res := token_refresh_post now req new_access_token st in
  (fst res = inl (mkResponse 401 []) /\ snd res = st) \/
  (fst res = inl (mkResponse 200 [SetCookie "access_token" new_access_token]) /\
   huggingface_tokens (snd res) = huggingface_tokens st /\
   user_hf_token_assignments (snd res) = user_hf_token_assignments st /\
   exists p r, In p (auth_tokens st) /\ AuthToken.token_type p = Refresh /\
     AuthToken.is_valid now p = true /\
     auth_tokens (snd res) = auth_tokens st ++ [r] /\
     AuthToken.token_type r = Access /\ AuthToken.token_hash r = hash_token new_access_token /\
     AuthToken.user r = AuthToken.user p /\ AuthToken.refresh_token r = Some (AuthToken.id p)).
Proof.
  intros res. unfold res, token_refresh_post, try_except.
  destruct (cookie_refresh_token req) as [s|]; [|left; split; reflexivity].
  destruct (String.eqb s ""); [left; split; reflexivity|].
  unfold save_token_to_db, token_class, create_token, bind, get, put, ret, raise.
  cbn beta iota.
  destruct (refresh_lookup (auth_tokens st) (hash_token s)) as [p|] eqn:Hl;
    [|left; split; reflexivity].
  destruct (AuthToken.is_valid now p) eqn:Hv; [|left; split; reflexivity].
  destruct (decode now s) as [c|]; [|left; split; reflexivity].
  destruct (token_type_eqb (c_type c) Refresh); [|left; split; reflexivity].
  cbn beta iota.
  destruct (decode now new_access_token) as [ca|] eqn:Hda; [|left; split; reflexivity].
  destruct (token_type_eqb (c_type ca) Access) eqn:Hta; [|left; split; reflexivity].
  cbn beta iota.
  match goal with |- context [if existsb ?f ?l then _ else _] => destruct (existsb f l) end;
    [left; split; reflexivity|right].
  cbn [fst snd auth_tokens huggingface_tokens user_hf_token_assignments set_auth_tokens].
  split; [reflexivity|]. split; [reflexivity|]. split; [reflexivity|].
  unfold refresh_lookup in Hl. apply find_rev_some in Hl as [Hin Hp].
  apply andb_true_iff in Hp as [Hp _]. apply andb_true_iff in Hp as [_ Ht].
  apply token_type_eqb_true in Ht.
  eexists p, _. split; [exact Hin|]. split; [exact Ht|]. split; [exact Hv|].
  split; [reflexivity|]. cbn. repeat split.
Qed.

Lemma logout_post_rows `{TB : TokenBackend} (now : Z) (user : nat) (req : Request)
  (st : State) (s : string) (c : Claims) (r : AuthToken.t) :
  cookie_refresh_token req = Some s -> s <> ""%string ->
  decode now s = Some c -> c_type c = Refresh ->
  first_token (auth_tokens st) (hash_token s) Refresh = Some r ->
  forall x, In x (auth_tokens (snd (logout_post now user req st))) ->
    In x (auth_tokens st) /\ AuthToken.id x <> AuthToken.id r /\ is_child_of r x = false.
Proof.
  intros Hck Hne Hd Ht Hf x Hx.
  rewrite (logout_post_found now user req st s c r Hck Hne Hd Ht Hf) in Hx. cbn [snd] in Hx.
  set (st1 := snd (_release_hf_token now user (c_jti c) st)) in Hx.
  assert (Hl1 : auth_tokens st1 = auth_tokens st) by reflexivity.
  rewrite delete_tokens_eq in Hx. apply filter_In in Hx as [Hx2 Hn2].
  rewrite delete_tokens_eq, Hl1 in Hx2. apply filter_In in Hx2 as [Hx1 Hn1].
  apply negb_true_iff, collected_self in Hn1, Hn2.
  apply Nat.eqb_neq in Hn2. auto.
Qed.

(** [LogoutView.post] either answers 200 with both cookies cleared, or 400
    without writing anything, and the 400 happens only for a non-empty
    refresh cookie that fails the structural check of a refresh token. *)
Theorem logout_post_outcomes `{TB : TokenBackend} (now : Z) (user : nat) (req : Request)
  (st : State) :
  fst (logout_post now user req st) = inl (mkResponse 200 clear_cookies) \/
  (fst (logout_post now user req st) = inl (mkResponse 400 []) /\
   snd (logout_post now user req st) = st /\
   exists s, cookie_refresh_token req = Some s /\ s <> ""%string /\
     forall c, decode now s = Some c -> c_type c <> Refresh).
Proof.
  destruct (cookie_refresh_token req) as [s|] eqn:Hck.
  2:{ left. unfold logout_post, try_except. rewrite Hck. reflexivity. }
  destruct (String.eqb s "") eqn:Es.
  { left. unfold logout_post, try_except. rewrite Hck, Es. reflexivity. }
  assert (Hne : s <> ""%string) by (apply String.eqb_neq; exact Es).
  destruct (decode now s) as [c|] eqn:Hd.
  - destruct (token_type_eqb (c_type c) Refresh) eqn:Ht.
    + left. apply token_type_eqb_true in Ht.
      destruct (first_token (auth_tokens st) (hash_token s) Refresh) as [r|] eqn:Hf.
      * rewrite (logout_post_found now user req st s c r Hck Hne Hd Ht Hf). reflexivity.
      * unfold logout_post, try_except. rewrite Hck, Es.
        unfold bind at 1 2. rewrite (token_class_ok now Refresh s c st Hd Ht).
        cbn -[first_token delete_tokens _release_hf_token].
        unfold bind at 1. cbn -[first_token delete_tokens].
        rewrite Hf. reflexivity.
    + right. unfold logout_post, try_except, token_class, bind.
      rewrite Hck, Es, Hd, Ht. cbn. split; [reflexivity|]. split; [reflexivity|].
      exists s. split; [reflexivity|]. split; [exact Hne|].
      intros c' Hc'. rewrite Hd in Hc'. injection Hc' as <-. intros E.
      rewrite E in Ht. discriminate.
  - right. unfold logout_post, try_except, token_class, bind.
    rewrite Hck, Es, Hd. cbn. split; [reflexivity|]. split; [reflexivity|].
    exists s. split; [reflexivity|]. split; [exact Hne|].
    intros c' Hc'. rewrite Hd in Hc'. discriminate.
Qed.

(** ** A logged-out session is refused everywhere *)

Lemma authenticate_no_row `{TB : TokenBackend} (now : Z) (req : Request) (st : State)
  (raw : raw_token) :
  raw_token_of req = Some raw ->
  (forall y, In y (auth_tokens st) -> AuthToken.token_hash y <> hash_token (raw_text raw)) ->
  exists e, fst (authenticate now req st) = inr e.
Proof.
  intros Hraw Hno. unfold authenticate. rewrite Hraw.
  unfold get_validated_token. destruct (decode now (raw_text raw)) as [c|]; [|eexists; reflexivity].
  destruct (token_type_eqb (c_type c) Access); [|eexists; reflexivity].
  destruct raw as [raw|raw]; [|eexists; reflexivity]. simpl in Hno.
  cbn -[db_check]. unfold db_check.
  destruct (first_token (auth_tokens st) (hash_token raw) Access) as [y|] eqn:Ef;
    [|eexists; reflexivity].
  unfold first_token in Ef. apply find_rev_some in Ef as [Hy Hp].
  apply andb_true_iff in Hp as [Hp _]. apply String.eqb_eq in Hp.
  exfalso. exact (Hno y Hy Hp).
Qed.

Lemma token_refresh_no_row `{TB : TokenBackend} (now : Z) (req : Request)
  (new_access_token : string) (st : State) (raw : string) :
  cookie_refresh_token req = Some raw ->
  (forall y, In y (auth_tokens st) -> AuthToken.token_hash y <> hash_token raw) ->
  token_refresh_post now req new_access_token st = (inl (mkResponse 401 []), st).
Proof.
  intros Hck Hno. unfold token_refresh_post, try_except. rewrite Hck.
  destruct (String.eqb raw ""); [reflexivity|].
  cbn -[refresh_lookup].
  replace (refresh_lookup (auth_tokens st) (hash_token raw)) with (@None AuthToken.t);
    [reflexivity|].
  symmetry. unfold refresh_lookup. apply find_rev_none.
  intros y Hy. destruct (String.eqb (AuthToken.token_hash y) (hash_token raw)) eqn:E;
    [|reflexivity].
  apply String.eqb_eq in E. exfalso. exact (Hno y Hy E).
Qed.

(** After a logout, the tokens of the logged-out session (the refresh
    record found for the cookie and its access children) are refused: a
    request authenticated with one of them fails, and the refresh endpoint
    answers 401 without writing. *)
Theorem logout_then_session_refused `{TB : TokenBackend} (now t : Z) (user : nat)
  (req : Request) (st : State) (s : string) (c : Claims) (r x : AuthToken.t)
  (req2 : Request) (raw new_access_token : string) :
  cookie_refresh_token req = Some s -> s <> ""%string ->
  decode now s = Some c -> c_type c = Refresh ->
  first_token (auth_tokens st) (hash_token s) Refresh = Some r ->
  NoDup (map AuthToken.token_hash (auth_tokens st)) ->
  In x (auth_tokens st) -> x = r \/ is_child_of r x = true ->
  hash_token raw = AuthToken.token_hash x ->
  let st' := snd (logout_post now user req st) in
  (option_map raw_text (raw_token_of req2) = Some raw ->
   exists e, fst (authenticate t req2 st') = inr e) /\
  (cookie_refresh_token req2 = Some raw ->
   token_refresh_post t req2 new_access_token st' = (inl (mkResponse 401 []), st')).
Proof.
  intros Hck Hne Hd Ht Hf Hnd Hx Hxr Hh st'.
  assert (Hno : forall y, In y (auth_tokens st') -> AuthToken.token_hash y <> hash_token raw).
  { intros y Hy E. destruct (logout_post_rows now user req st s c r Hck Hne Hd Ht Hf y Hy)
      as (Hin & Hid & Hch).
    rewrite Hh in E. pose proof (NoDup_map_inj _ _ _ _ Hnd Hin Hx E) as ->.
    destruct Hxr as [->|Hc]; [exact (Hid eq_refl)|congruence]. }
  split.
  - intros Hraw. destruct (raw_token_of req2) as [rt|] eqn:Er; [|discriminate].
    injection Hraw as Hrt. apply (authenticate_no_row t req2 st' rt Er).
    rewrite Hrt. exact Hno.
  - intros Hck2. exact (token_refresh_no_row t req2 new_access_token st' raw Hck2 Hno).
Qed.

Lemma logout_then_session_refused_witness :
  exists e, fst (@authenticate demo_backend 10 (mkRequest (Some "at1"%string) None None)
                   (snd (@logout_post demo_backend 10 1
                           (mkRequest (Some "at1"%string) (Some "rt1"%string) None) demo_state)))
            = inr e.
Proof.
  apply (proj1 (@logout_then_session_refused demo_backend 10 10 1
     (mkRequest (Some "at1"%string) (Some "rt1"%string) None) demo_state "rt1"
     (mkClaims "j1" 1000 Refresh 1) demo_refresh_row demo_access_row
     (mkRequest (Some "at1"%string) None None) "at1" "at2"
     eq_refl ltac:(discriminate) eq_refl eq_refl eq_refl
     ltac:(repeat constructor; simpl; intuition discriminate)
     ltac:(simpl; auto) ltac:(right; reflexivity) eq_refl)).
  reflexivity.
Defined.

(** ** Refused writes *)

Lemma save_token_to_db_collision `{TB : TokenBackend} (now : Z) (user : nat) (tok : string)
  (tt : token_type) (parent : option AuthToken.t) (c : Claims) (st : State) :
  decode now tok = Some c -> c_type c = tt ->
  (exists q, In q (auth_tokens st) /\
             (AuthToken.token_hash q = hash_token tok \/ AuthToken.jti q = c_jti c)) ->
  save_token_to_db now user tok tt parent st = (inr IntegrityError, st).
Proof.
  intros Hd Ht [q [Hq Hdup]].
  assert (Htt : token_type_eqb (c_type c) tt = true) by (apply token_type_eqb_true; exact Ht).
  unfold save_token_to_db, token_class, create_token, bind, get, put, ret, raise.
  rewrite Hd, Htt. cbn -[existsb].
  match goal with |- context [existsb ?f ?l] =>
    replace (existsb f l) with true; [reflexivity|] end.
  symmetry. apply existsb_exists. exists q. split; [exact Hq|]. cbn.
  destruct Hdup as [E|E]; rewrite E, String.eqb_refl; [reflexivity|apply orb_true_r].
Qed.

(** [save_token_to_db] with a token whose hash or [jti] is already stored
    raises [IntegrityError] (the unique indexes) and writes nothing. *)
Theorem save_token_to_db_duplicate `{TB : TokenBackend} (now : Z) (user : nat) (tok : string)
  (tt : token_type) (parent : option AuthToken.t) (c : Claims) (st : State) :
  decode now tok = Some c -> c_type c = tt ->
  (exists q, In q (auth_tokens st) /\
             (AuthToken.token_hash q = hash_token tok \/ AuthToken.jti q = c_jti c)) ->
  save_token_to_db now user tok tt parent st = (inr IntegrityError, st).
Proof. exact (save_token_to_db_collision now user tok tt parent c st). Qed.

Lemma save_token_to_db_duplicate_witness :
  @save_token_to_db demo_backend 10 1 "rt1" Refresh None demo_state = (inr IntegrityError, demo_state).
Proof.
  apply (@save_token_to_db_duplicate demo_backend 10 1 "rt1" Refresh None
           (mkClaims "j1" 1000 Refresh 1) demo_state eq_refl eq_refl).
  exists demo_refresh_row. split; [simpl; auto|left; reflexivity].
Defined.

(** ** Running the purge twice *)

Lemma filter_all_true {A} (p : A -> bool) (l : list A) :
  (forall x, In x l -> p x = true) -> filter p l = l.
Proof.
  induction l as [|a l IH]; simpl; intros H; [reflexivity|].
  rewrite H by auto. f_equal. apply IH; auto.
Qed.

(** [cleanup_expired_tokens] run a second time with the same clock reading
    and retention deletes nothing and changes nothing; neither run touches
    the pool or the ledger.  When the cutoff overflows, both runs raise
    [OverflowError] and the store is left as it was. *)
Theorem cleanup_expired_tokens_idempotent (now d : Z) (st : State) :
  let st1 := snd (cleanup_expired_tokens now d st) in
  huggingface_tokens st1 = huggingface_tokens st /\
  user_hf_token_assignments st1 = user_hf_token_assignments st /\
  (cutoff_in_range now d = true -> cleanup_expired_tokens now d st1 = (inl 0%nat, st1)) /\
  (cutoff_in_range now d = false ->
   st1 = st /\ cleanup_expired_tokens now d st1 = (inr OverflowError, st)).
Proof.
  intros st1.
  destruct (cutoff_in_range now d) eqn:Hok.
  2:{ assert (E : st1 = st) by (unfold st1; rewrite cleanup_expired_tokens_eq, Hok; reflexivity).
      rewrite E, cleanup_expired_tokens_eq, Hok. repeat split; discriminate. }
  assert (E1 : st1 = snd (delete_tokens (purge_match (now - days d)) st))
    by (unfold st1; rewrite cleanup_expired_tokens_eq, Hok; reflexivity).
  clearbody st1. subst st1.
  split; [reflexivity|]. split; [reflexivity|]. split; [|discriminate]. intros _.
  rewrite cleanup_expired_tokens_eq, Hok.
  set (m := purge_match (now - days d)).
  set (st1 := snd (delete_tokens m st)).
  set (l := auth_tokens st).
  assert (El1 : auth_tokens st1 = filter (fun r => negb (collected m l (List.length l) r)) l)
    by reflexivity.
  assert (Hkeep : forall x, In x (auth_tokens st1) ->
            collected m (auth_tokens st1) (List.length (auth_tokens st1)) x = false).
  { intros x Hx. pose proof Hx as Hx'. rewrite El1 in Hx'.
    apply filter_In in Hx' as [_ Hn]. apply negb_true_iff in Hn.
    destruct (collected m (auth_tokens st1) (List.length (auth_tokens st1)) x) eqn:E;
      [|reflexivity].
    apply (collected_incl m (auth_tokens st1) l) in E.
    - apply (collected_mono_fuel m l _ (List.length l)) in E.
      + congruence.
      + rewrite El1. apply filter_length_le.
    - intros q Hq. rewrite El1 in Hq. apply filter_In in Hq. tauto. }
  clearbody st1.
  unfold delete_tokens, bind, get, put, ret. cbn beta iota zeta.
  rewrite filter_all_true.
  - rewrite Nat.sub_diag. destruct st1; reflexivity.
  - intros x Hx. rewrite Hkeep by exact Hx. reflexivity.
Qed.

Lemma cleanup_expired_tokens_idempotent_witness :
  snd (cleanup_expired_tokens 0 1000000000 demo_state) = demo_state /\
  cleanup_expired_tokens 0 1000000000 (snd (cleanup_expired_tokens 0 1000000000 demo_state))
    = (inr OverflowError, demo_state).
Proof.
  destruct (cleanup_expired_tokens_idempotent 0 1000000000 demo_state) as (_ & _ & _ & H).
  apply H. reflexivity.
Defined.

(** ** The client address recorded with a token *)

Lemma split_first_comma_spec (s : string) :
  exists rest, s = (split_first_comma s ++ rest)%string /\
    (forall n, String.get n (split_first_comma s) <> Some ","%char) /\
    (rest = ""%string \/ exists rest', rest = String ","%char rest').
Proof.
  induction s as [|ch s IH]; simpl.
  - exists ""%string. split; [reflexivity|]. split; [intros n; destruct n; discriminate|auto].
  - destruct (Ascii.eqb ch ","%char) eqn:E.
    + apply Ascii.eqb_eq in E. subst ch. exists (String ","%char s).
      split; [reflexivity|]. split; [intros n; destruct n; discriminate|right; eauto].
    + destruct IH as [rest (Hs & Hc & Hr)]. exists rest.
      split; [simpl; rewrite <- Hs; reflexivity|]. split; [|exact Hr].
      intros [|n]; simpl.
      * intros H. injection H as ->. rewrite Ascii.eqb_refl in E. discriminate.
      * apply Hc.
Qed.

(** [get_client_ip] answers [REMOTE_ADDR] when [X-Forwarded-For] is missing
    or empty; otherwise it answers the header's text up to its first comma,
    unstripped: a prefix of the header containing no comma, followed in the
    header by nothing or by a comma. *)
Theorem get_client_ip_first_field (xff : option string) (remote_addr : option string) :
  (xff = None \/ xff = Some ""%string -> get_client_ip xff remote_addr = remote_addr) /\
  (forall s, xff = Some s -> s <> ""%string ->
     exists ip rest, get_client_ip xff remote_addr = Some ip /\ s = (ip ++ rest)%string /\
       (forall n, String.get n ip <> Some ","%char) /\
       (rest = ""%string \/ exists rest', rest = String ","%char rest')).
Proof.
  split.
  - intros [->| ->]; reflexivity.
  - intros s -> Hne. unfold get_client_ip.
    apply String.eqb_neq in Hne. rewrite Hne.
    destruct (split_first_comma_spec s) as [rest (Hs & Hc & Hr)].
    exists (split_first_comma s), rest. auto.
Qed.

(** ** Revoking an access record *)

Lemma save_token_keeps (self : AuthToken.t) (st : State) :
  In self (auth_tokens (snd (save_token self st))) /\
  forall x, In x (auth_tokens st) -> AuthToken.id x <> AuthToken.id self ->
            In x (auth_tokens (snd (save_token self st))).
Proof.
  unfold save_token, bind, get, put. cbn beta iota.
  destruct (existsb (fun r => Nat.eqb (AuthToken.id r) (AuthToken.id self)) (auth_tokens st))
    eqn:Ex; cbn [snd auth_tokens set_auth_tokens].
  - split.
    + apply existsb_exists in Ex as [y [Hy Hp]]. apply in_map_iff. exists y.
      rewrite Hp. split; [reflexivity|exact Hy].
    + intros x Hx Hne. apply in_map_iff. exists x. split; [|exact Hx].
      apply Nat.eqb_neq in Hne. rewrite Hne. reflexivity.
  - split; [apply in_or_app; right; left; reflexivity|].
    intros x Hx _. apply in_or_app. left. exact Hx.
Qed.

(** Revoking a non-revoked access record saves it revoked at the first
    clock reading and cascades to nothing: every other row is kept as it
    was, and no row is added besides the record itself. *)
Theorem revoke_access_no_cascade (now1 now2 : Z) (self : AuthToken.t) (st : State) :
  AuthToken.token_type self = Access -> AuthToken.is_revoked self = false ->
  let l' := auth_tokens (snd (revoke now1 now2 self st)) in
  In (AuthToken.with_revoked now1 self) l' /\
  (forall x, In x (auth_tokens st) -> AuthToken.id x <> AuthToken.id self -> In x l') /\
  (forall x, In x l' -> x = AuthToken.with_revoked now1 self \/
                       (In x (auth_tokens st) /\ AuthToken.id x <> AuthToken.id self)).
Proof.
  intros Ht Hr l'.
  assert (El : l' = auth_tokens (snd (save_token (AuthToken.with_revoked now1 self) st))).
  { unfold l', revoke. rewrite Hr. cbn [negb]. lazy zeta.
    destruct (save_token_rows (AuthToken.with_revoked now1 self) st) as (Hs & _).
    unfold bind. rewrite Hs. cbn beta iota.
    replace (token_type_eqb (AuthToken.token_type (AuthToken.with_revoked now1 self)) Refresh)
      with false by (cbn; rewrite Ht; reflexivity).
    reflexivity. }
  rewrite El. destruct (save_token_keeps (AuthToken.with_revoked now1 self) st) as [Hin Hk].
  destruct (save_token_rows (AuthToken.with_revoked now1 self) st) as (_ & _ & _ & Hr1 & _).
  split; [exact Hin|]. split; [exact Hk|exact Hr1].
Qed.

Lemma revoke_access_no_cascade_witness :
  In demo_refresh_row (auth_tokens (snd (revoke 5 7 demo_access_row demo_state))).
Proof.
  destruct (revoke_access_no_cascade 5 7 demo_access_row demo_state eq_refl eq_refl)
    as (_ & H & _).
  apply H; [simpl; auto|discriminate].
Defined.

(** ** The chat credential after a release *)

Lemma first_active_assignment_some (st : State) (u : nat) (a : UserHFTokenAssignment.t)
  (tk : HuggingFaceToken.t) :
  first_active_assignment st u = Some (a, tk) ->
  In a (user_hf_token_assignments st) /\ UserHFTokenAssignment.user a = u /\
  UserHFTokenAssignment.is_active a = true /\ hf_token_of st a = Some tk.
Proof.
  unfold first_active_assignment. intros Hf.
  assert (H : In a (rev (user_hf_token_assignments st)) /\ UserHFTokenAssignment.user a = u /\
              UserHFTokenAssignment.is_active a = true /\ hf_token_of st a = Some tk).
  { induction (rev (user_hf_token_assignments st)) as [|b l IH]; simpl in Hf; [discriminate|].
    destruct (Nat.eqb (UserHFTokenAssignment.user b) u && UserHFTokenAssignment.is_active b)
      eqn:Eb.
    - destruct (hf_token_of st b) as [t|] eqn:Et.
      + injection Hf as <- <-. apply andb_true_iff in Eb as [Eu Ea].
        apply Nat.eqb_eq in Eu. simpl. auto.
      + destruct (IH Hf) as (H1 & H2). simpl. auto.
    - destruct (IH Hf) as (H1 & H2). simpl. auto. }
  destruct H as (Hin & H). rewrite <- in_rev in Hin. auto.
Qed.

(** [_release_hf_token] touches no Assignment of another user or another
    session, and afterwards neither the current-assignment endpoint nor the
    chat service picks an Assignment of the released session; when all the
    user's active Assignments belonged to that session, the endpoint
    answers 404 and the chat service uses the default credential. *)
Theorem release_then_chat_fallback (now : Z) (user : nat) (sid default : string) (st : State) :
  let st' := snd (_release_hf_token now user sid st) in
  (forall a, In a (user_hf_token_assignments st) ->
     UserHFTokenAssignment.user a <> user \/ UserHFTokenAssignment.session_identifier a <> sid ->
     In a (user_hf_token_assignments st')) /\
  (forall a tk, first_active_assignment st' user = Some (a, tk) ->
     UserHFTokenAssignment.session_identifier a <> sid) /\
  ((forall a, In a (user_hf_token_assignments st) -> UserHFTokenAssignment.user a = user ->
              UserHFTokenAssignment.is_active a = true ->
              UserHFTokenAssignment.session_identifier a = sid) ->
   current_assignment st' user = None /\ _get_api_token default st' (Some user) = default).
Proof.
  intros st'.
  assert (HL : user_hf_token_assignments st' =
    map (fun a => if Nat.eqb (UserHFTokenAssignment.user a) user
                     && String.eqb (UserHFTokenAssignment.session_identifier a) sid
                     && UserHFTokenAssignment.is_active a
                  then UserHFTokenAssignment.released now a else a)
        (user_hf_token_assignments st)) by reflexivity.
  assert (Hsome : forall a tk, first_active_assignment st' user = Some (a, tk) ->
            In a (user_hf_token_assignments st) /\
            UserHFTokenAssignment.user a = user /\ UserHFTokenAssignment.is_active a = true /\
            UserHFTokenAssignment.session_identifier a <> sid).
  { intros a tk Hf. apply first_active_assignment_some in Hf as (Hin & Hu & Ha & _).
    rewrite HL in Hin. apply in_map_iff in Hin as [b [Hb Hin]].
    destruct (Nat.eqb (UserHFTokenAssignment.user b) user
              && String.eqb (UserHFTokenAssignment.session_identifier b) sid
              && UserHFTokenAssignment.is_active b) eqn:E.
    - subst a. discriminate.
    - subst b. split; [exact Hin|]. split; [exact Hu|]. split; [exact Ha|].
      intros Hs. rewrite Hu, Hs, Ha, Nat.eqb_refl, String.eqb_refl in E. discriminate. }
  split; [|split].
  - intros a Ha Hne. rewrite HL. apply in_map_iff. exists a. split; [|exact Ha].
    destruct Hne as [Hne|Hne].
    + apply Nat.eqb_neq in Hne. rewrite Hne. reflexivity.
    + apply String.eqb_neq in Hne. rewrite Hne, andb_false_r. reflexivity.
  - intros a tk Hf. exact (proj2 (proj2 (proj2 (Hsome a tk Hf)))).
  - intros Hall.
    assert (Hn : first_active_assignment st' user = None).
    { destruct (first_active_assignment st' user) as [[a tk]|] eqn:Hf; [|reflexivity].
      destruct (Hsome a tk eq_refl) as (Hin & Hu & Ha & Hs).
      exfalso. exact (Hs (Hall a Hin Hu Ha)). }
    unfold current_assignment, _get_api_token. rewrite Hn. split; reflexivity.
Qed.

(** ** The shortened [jti] of the admin list *)

Lemma substring_prefix (n : nat) (s : string) :
  exists rest, s = (substring 0 n s ++ rest)%string /\
               String.length (substring 0 n s) = Nat.min n (String.length s).
Proof.
  revert s. induction n as [|n IH]; intros s.
  - exists s. destruct s; split; reflexivity.
  - destruct s as [|ch s].
    + exists ""%string. split; reflexivity.
    + destruct (IH s) as [rest [Hs Hl]]. exists rest. simpl.
      split; [rewrite <- Hs; reflexivity|rewrite Hl; reflexivity].
Qed.

Lemma string_length_app (s1 s2 : string) :
  String.length (s1 ++ s2) = (String.length s1 + String.length s2)%nat.
Proof. induction s1 as [|ch s1 IH]; simpl; [reflexivity|rewrite IH; reflexivity]. Qed.

(** [jti_short] shows a [jti] of at most 16 characters unchanged, and a
    longer one as its first 16 characters followed by "...": never more
    than 19 characters. *)
Theorem jti_short_shape (jti : string) :
  ((String.length jti <= 16)%nat -> jti_short jti = jti) /\
  ((16 < String.length jti)%nat ->
   exists head rest, jti = (head ++ rest)%string /\ String.length head = 16%nat /\
                     jti_short jti = (head ++ "...")%string) /\
  (String.length (jti_short jti) <= 19)%nat.
Proof.
  destruct (substring_prefix 16 jti) as [rest [Hs Hl]].
  unfold jti_short.
  destruct (Nat.ltb 16 (String.length jti)) eqn:E.
  - apply Nat.ltb_lt in E. split; [intros H; lia|]. split.
    + intros _. exists (substring 0 16 jti), rest. split; [exact Hs|]. split; [lia|reflexivity].
    + rewrite string_length_app. simpl. lia.
  - apply Nat.ltb_ge in E. split; [reflexivity|]. split; [intros H; lia|lia].
Qed.

(** ** Pool statistics and the admin column *)

Lemma filter_negb_length {A} (f : A -> bool) (l : list A) :
  (List.length (filter f l) + List.length (filter (fun x => negb (f x)) l))%nat = List.length l.
Proof. induction l as [|a l IH]; simpl; [reflexivity|]. destruct (f a); simpl; lia. Qed.

Lemma count_matching_id (P : list HuggingFaceToken.t) (h : nat) :
  NoDup (map HuggingFaceToken.id P) -> In h (map HuggingFaceToken.id P) ->
  List.length (filter (fun tk => Nat.eqb h (HuggingFaceToken.id tk)) P) = 1%nat.
Proof.
  induction P as [|tk P IH]; simpl; intros Hnd Hin; [contradiction|].
  inversion Hnd as [|? ? Hnotin Hnd']; subst.
  destruct (Nat.eqb h (HuggingFaceToken.id tk)) eqn:E.
  - apply Nat.eqb_eq in E. subst h. simpl. f_equal.
    rewrite filter_all_false; [reflexivity|].
    intros x Hx. apply Nat.eqb_neq. intros E. apply Hnotin. rewrite E. apply in_map. exact Hx.
  - destruct Hin as [Hin|Hin]; [apply Nat.eqb_neq in E; congruence|]. apply IH; assumption.
Qed.

Lemma sum_assignment_counts (P : list HuggingFaceToken.t) (L : list UserHFTokenAssignment.t) :
  NoDup (map HuggingFaceToken.id P) ->
  (forall a, In a L -> In (UserHFTokenAssignment.hf_token a) (map HuggingFaceToken.id P)) ->
  List.length (filter UserHFTokenAssignment.is_active L)
  = list_sum (map (fun obj => List.length
                    (filter (fun b => Nat.eqb (UserHFTokenAssignment.hf_token b)
                                        (HuggingFaceToken.id obj)
                                      && UserHFTokenAssignment.is_active b) L)) P).
Proof.
  intros Hnd. induction L as [|a L IH]; intros Hfk; simpl.
  - clear Hnd Hfk. induction P as [|tk P IHP]; simpl; [reflexivity|]. exact IHP.
  - assert (IH' := IH (fun b Hb => Hfk b (or_intror Hb))).
    assert (Hsplit : forall P' : list HuggingFaceToken.t,
      list_sum (map (fun obj => List.length
                      (if Nat.eqb (UserHFTokenAssignment.hf_token a) (HuggingFaceToken.id obj)
                          && UserHFTokenAssignment.is_active a
                       then a :: filter (fun b => Nat.eqb (UserHFTokenAssignment.hf_token b)
                                              (HuggingFaceToken.id obj)
                                            && UserHFTokenAssignment.is_active b) L
                       else filter (fun b => Nat.eqb (UserHFTokenAssignment.hf_token b)
                                           (HuggingFaceToken.id obj)
                                         && UserHFTokenAssignment.is_active b) L)) P')
      = (List.length (filter (fun tk => Nat.eqb (UserHFTokenAssignment.hf_token a)
                                          (HuggingFaceToken.id tk)) P')
           * (if UserHFTokenAssignment.is_active a then 1 else 0)
         + list_sum (map (fun obj => List.length
                           (filter (fun b => Nat.eqb (UserHFTokenAssignment.hf_token b)
                                               (HuggingFaceToken.id obj)
                                             && UserHFTokenAssignment.is_active b) L)) P'))%nat).
    { induction P' as [|tk P' IHP]; simpl; [reflexivity|]. rewrite IHP.
      destruct (Nat.eqb (UserHFTokenAssignment.hf_token a) (HuggingFaceToken.id tk));
        destruct (UserHFTokenAssignment.is_active a); simpl; lia. }
    rewrite Hsplit, <- IH'.
    rewrite (count_matching_id _ _ Hnd (Hfk a (or_introl eq_refl))).
    destruct (UserHFTokenAssignment.is_active a); simpl; lia.
Qed.

(** The statistics endpoint is consistent with the pool and with the admin
    column: [inactive_tokens] is the number of inactive entries (the
    subtraction never truncates), and, with unique primary keys and every
    Assignment pointing at an existing entry, [active_assignments] is the
    sum of the entries' [assignment_count]. *)
Theorem stats_consistent (st : State) :
  NoDup (map HuggingFaceToken.id (huggingface_tokens st)) ->
  (forall a, In a (user_hf_token_assignments st) ->
             In (UserHFTokenAssignment.hf_token a) (map HuggingFaceToken.id (huggingface_tokens st))) ->
  inactive_tokens (stats st)
    = List.length (filter (fun tk => negb (HuggingFaceToken.is_active tk)) (huggingface_tokens st)) /\
  (active_tokens (stats st) + inactive_tokens (stats st) = total_tokens (stats st))%nat /\
  active_assignments (stats st) = list_sum (map (assignment_count st) (huggingface_tokens st)).
Proof.
  intros Hnd Hfk. unfold stats. cbn [inactive_tokens active_tokens total_tokens active_assignments].
  pose proof (filter_negb_length HuggingFaceToken.is_active (huggingface_tokens st)) as Hlen.
  split; [lia|]. split; [lia|].
  unfold assignment_count. exact (sum_assignment_counts _ _ Hnd Hfk).
Qed.

Lemma stats_consistent_witness :
  active_assignments (stats demo_state)
    = list_sum (map (assignment_count demo_state) (huggingface_tokens demo_state)).
Proof.
  apply stats_consistent.
  - repeat constructor; simpl; intuition discriminate.
  - intros a [<-|[]]. simpl. auto.
Defined.


(** ** A whole session: registration, then logout *)

(** A registration followed by a logout that presents the refresh token
    just issued answers 200 with both cookies cleared, deletes the two
    records of the registration, keeps only rows that were there before,
    and keeps the number of Assignments. *)
Theorem register_logout_round_trip `{TB : TokenBackend} (now : Z) (user : nat)
  (rs acc : string) (cr ca : Claims) (req : Request) (st : State) :
  decode now rs = Some cr -> c_type cr = Refresh ->
  decode now acc = Some ca -> c_type ca = Access ->
  hash_token rs <> hash_token acc -> c_jti cr <> c_jti ca ->
  (forall q, In q (auth_tokens st) ->
     AuthToken.token_hash q <> hash_token rs /\ AuthToken.token_hash q <> hash_token acc /\
     AuthToken.jti q <> c_jti cr /\ AuthToken.jti q <> c_jti ca) ->
  cookie_refresh_token req = Some rs -> rs <> ""%string ->
  let st1 := snd (register_create now user rs acc st) in
  let st2 := snd (logout_post now user req st1) in
  fst (logout_post now user req st1) = inl (mkResponse 200 clear_cookies) /\
  List.length (user_hf_token_assignments st2) = List.length (user_hf_token_assignments st) /\
  forall x, In x (auth_tokens st2) ->
    In x (auth_tokens st) /\ AuthToken.token_hash x <> hash_token rs /\
    AuthToken.token_hash x <> hash_token acc.
Proof.
  intros Hdr Htr Hda Hta Hh Hj Hfresh Hck Hne st1 st2.
  set (rr := AuthToken.mk (next_id (auth_tokens st)) user Refresh (hash_token rs) (c_jti cr) now
                          (c_exp cr) None false None).
  set (ar := AuthToken.mk (next_id (auth_tokens st ++ [rr])) user Access (hash_token acc)
                          (c_jti ca) now (c_exp ca) None false (Some (AuthToken.id rr))).
  assert (Hst1 : st1 = set_auth_tokens st (auth_tokens st ++ [rr; ar])).
  { unfold st1, register_create.
    rewrite (save_pair_fresh now user rs acc cr ca st _ Hdr Htr Hda Hta Hh Hj Hfresh).
    reflexivity. }
  assert (Hl1 : auth_tokens st1 = auth_tokens st ++ [rr; ar]) by (rewrite Hst1; reflexivity).
  assert (Ha1 : user_hf_token_assignments st1 = user_hf_token_assignments st)
    by (rewrite Hst1; reflexivity).
  assert (Hf : first_token (auth_tokens st1) (hash_token rs) Refresh = Some rr).
  { unfold first_token. rewrite Hl1, rev_app_distr. cbn [rev app find].
    unfold ar at 1. cbn [AuthToken.token_hash AuthToken.token_type].
    destruct (String.eqb (hash_token acc) (hash_token rs)) eqn:E.
    { apply String.eqb_eq in E. congruence. }
    cbn [andb]. unfold rr at 1. cbn [AuthToken.token_hash AuthToken.token_type].
    rewrite String.eqb_refl. reflexivity. }
  split.
  - unfold st2. rewrite (logout_post_found now user req st1 rs cr rr Hck Hne Hdr Htr Hf).
    reflexivity.
  - split.
    + unfold st2. rewrite (logout_post_found now user req st1 rs cr rr Hck Hne Hdr Htr Hf).
      cbn [snd]. rewrite <- Ha1.
      exact (proj1 (release_hf_token_effect now user (c_jti cr) st1)).
    + intros x Hx.
      destruct (logout_post_rows now user req st1 rs cr rr Hck Hne Hdr Htr Hf x Hx)
        as (Hin & Hid & Hch).
      rewrite Hl1 in Hin. apply in_app_or in Hin as [Hin|[<-|[<-|[]]]].
      * destruct (Hfresh x Hin) as (H1 & H2 & _). auto.
      * contradiction.
      * unfold is_child_of in Hch. cbn [AuthToken.refresh_token] in Hch.
        apply Nat.eqb_neq in Hch. contradiction.
Qed.

Lemma register_logout_round_trip_witness :
  let st1 := snd (@register_create demo_backend 10 1 "rt1" "at1" (mkState [] [] [])) in
  fst (@logout_post demo_backend 10 1 (mkRequest None (Some "rt1"%string) None) st1)
    = inl (mkResponse 200 clear_cookies).
Proof.
  intros st1.
  refine (proj1 (@register_logout_round_trip demo_backend 10 1 "rt1" "at1"
              (mkClaims "j1" 1000 Refresh 1) (mkClaims "a1" 500 Access 1)
              (mkRequest None (Some "rt1"%string) None) (mkState [] [] [])
              eq_refl eq_refl eq_refl eq_refl _ _ _ eq_refl _)).
  - discriminate.
  - discriminate.
  - intros q [].
  - discriminate.
Defined.
